(** * SDV-Scraper: the field extractors, the date index and the entry point

    A shallow embedding of [scraper.py].  The parsed document that
    BeautifulSoup hands to the extractors is a finite tree of tags and
    text nodes; the extractors are the functions of the source over that
    tree.  Python strings are modelled as [string], each character standing
    for the code point of the same number (code points below 256). *)

From Stdlib Require Import Ascii NArith ZArith.
From Stdlib Require Import Numbers.DecimalString Numbers.DecimalZ.
From stdpp Require Import base option list strings gmap fin_maps.

Set Warnings "-register-all".

(** ** Python string methods *)

Module Str.

(** [str.isspace] on one character: the white space of Unicode that lies
    below code point 256. *)
Definition isspace (c : ascii) : bool :=
  let n := N_of_ascii c in
  ((9 <=? n) && (n <=? 13) || (28 <=? n) && (n <=? 32)
   || (n =? 133) || (n =? 160))%N.

(** [str.isdigit] restricted to the decimal digits [\d] matches: below
    code point 256 these are "0" to "9". *)
Definition isdigit (c : ascii) : bool :=
  let n := N_of_ascii c in ((48 <=? n) && (n <=? 57))%N.

Fixpoint lstrip (s : string) : string :=
  match s with
  | EmptyString => EmptyString
  | String c s' => if isspace c then lstrip s' else s
  end.

Definition rev (s : string) : string :=
  String.string_of_list_ascii (List.rev (String.list_ascii_of_string s)).

Definition rstrip (s : string) : string := rev (lstrip (rev s)).

(** [s.strip()] *)
Definition strip (s : string) : string := rstrip (lstrip s).

(** [s.startswith(p)] *)
Definition startswith (s p : string) : bool := String.prefix p s.

(** [sub in s] for two strings *)
Fixpoint contains (sub s : string) : bool :=
  String.prefix sub s ||
  match s with
  | EmptyString => false
  | String _ s' => contains sub s'
  end.

Definition lower_char (c : ascii) : ascii :=
  let n := N_of_ascii c in
  if ((65 <=? n) && (n <=? 90)
      || (192 <=? n) && (n <=? 222) && negb (n =? 215))%N
  then ascii_of_N (n + 32) else c.

(** [s.lower()] *)
Fixpoint lower (s : string) : string :=
  match s with
  | EmptyString => EmptyString
  | String c s' => String (lower_char c) (lower s')
  end.

(** [sep.join(parts)] *)
Definition join (sep : string) (parts : list string) : string :=
  String.concat sep parts.

(** Truth value of a string: non-empty. *)
Definition truthy (s : string) : bool :=
  match s with EmptyString => false | _ => true end.

(** [x in l] for a list of strings *)
Definition mem (x : string) (l : list string) : bool :=
  existsb (String.eqb x) l.

End Str.

(** ** The parsed document *)

Module Soup.

(** A page element: a text node, or a tag with its single-valued
    attributes ([id], [src], [title], ...), the tokens of its [class]
    attribute when it has one (the tree builder splits that attribute
    into a list), and its contents in document order. *)
Inductive node :=
| NavigableString (s : string)
| Tag (name : string) (attrs : list (string * string))
      (class_ : option (list string)) (contents : list node).

(** [element.name]; a text node has none. *)
Definition name (n : node) : option string :=
  match n with
  | NavigableString _ => None
  | Tag nm _ _ _ => Some nm
  end.

Definition has_name (nm : string) (n : node) : bool :=
  match name n with
  | Some nm' => String.eqb nm' nm
  | None => false
  end.

Definition is_tag (n : node) : bool :=
  match n with Tag _ _ _ _ => true | _ => false end.

(** [tag.children] *)
Definition children (n : node) : list node :=
  match n with
  | NavigableString _ => []
  | Tag _ _ _ cs => cs
  end.

Fixpoint assoc {A} (k : string) (l : list (string * A)) : option A :=
  match l with
  | [] => None
  | (k', v) :: l' => if String.eqb k' k then Some v else assoc k l'
  end.

(** [tag.get(key)] for a single-valued attribute *)
Definition get (key : string) (n : node) : option string :=
  match n with
  | NavigableString _ => None
  | Tag _ attrs _ _ => assoc key attrs
  end.

(** [tag.get("class", [])] *)
Definition get_class (n : node) : list string :=
  match n with
  | Tag _ _ (Some l) _ => l
  | _ => []
  end.

(** How one search criterion [{key: want}] is compared with a tag: a
    single-valued attribute must be there and equal; for [class] one
    token, or the whole space-joined value, must be equal. *)
Definition attr_matches (key want : string) (n : node) : bool :=
  if String.eqb key "class" then
    match n with
    | Tag _ _ (Some l) _ =>
        Str.mem want l || String.eqb (Str.join " " l) want
    | _ => false
    end
  else
    match get key n with
    | Some v => String.eqb v want
    | None => false
    end.

Definition matches (nm : string) (want : list (string * string))
    (n : node) : bool :=
  has_name nm n && forallb (fun kv => attr_matches (fst kv) (snd kv) n) want.

(** [tag.descendants]: every node below the tag, in document order. *)
Fixpoint descendants (n : node) : list node :=
  match n with
  | NavigableString _ => []
  | Tag _ _ _ cs => flat_map (fun c => c :: descendants c) cs
  end.

(** The same walk, each node with the siblings that follow it under its
    parent: what a tag object knows of its position. *)
Fixpoint descendants_located (n : node) : list (node * list node) :=
  match n with
  | NavigableString _ => []
  | Tag _ _ _ cs =>
      (fix go (l : list node) : list (node * list node) :=
         match l with
         | [] => []
         | c :: rest => (c, rest) :: descendants_located c ++ go rest
         end) cs
  end.

(** [tag.find_all(name, attrs)] *)
Definition find_all (nm : string) (want : list (string * string))
    (n : node) : list node :=
  List.filter (matches nm want) (descendants n).

(** [tag.find(name, attrs)] *)
Definition find (nm : string) (want : list (string * string))
    (n : node) : option node :=
  head (find_all nm want n).

(** [find_all] keeping each hit's following siblings. *)
Definition find_all_located (nm : string) (want : list (string * string))
    (n : node) : list (node * list node) :=
  List.filter (fun p => matches nm want (fst p)) (descendants_located n).

(** [tag.find_next_sibling()] from a position: the next sibling that is a
    tag, with the siblings after it. *)
Fixpoint find_next_sibling (after : list node)
    : option (node * list node) :=
  match after with
  | [] => None
  | n :: rest => if is_tag n then Some (n, rest) else find_next_sibling rest
  end.

(** The text nodes below a node, in document order; with [strip] each is
    stripped and the empty ones are dropped. *)
Fixpoint all_strings (strip : bool) (n : node) : list string :=
  match n with
  | NavigableString s =>
      if strip
      then (let s' := Str.strip s in if Str.truthy s' then [s'] else [])
      else [s]
  | Tag _ _ _ cs => flat_map (all_strings strip) cs
  end.

(** [tag.get_text(sep, strip=...)] *)
Definition get_text (sep : string) (strip : bool) (n : node) : string :=
  Str.join sep (all_strings strip n).

End Soup.

Import Soup.

(** ** The fragment of [re] the birthday patterns use *)

Module Re.

(** Patterns: a literal, alternation, concatenation, greedy [c*] and
    [c+] over a character class, and a numbered capturing group. *)
Inductive regex :=
| Lit (w : string)
| Alt (r1 r2 : regex)
| Seq (r1 r2 : regex)
| Star (cls : ascii -> bool)
| Plus (cls : ascii -> bool)
| Group (i : nat) (r : regex).

(** The groups of a match, the latest capture first. *)
Definition captures := list (nat * string).

Fixpoint strip_prefix (w s : string) : option string :=
  match w with
  | EmptyString => Some s
  | String a w' =>
      match s with
      | String b s' => if Ascii.eqb a b then strip_prefix w' s' else None
      | EmptyString => None
      end
  end.

Fixpoint take (n : nat) (s : string) : string :=
  match n, s with
  | S n', String c s' => String c (take n' s')
  | _, _ => EmptyString
  end.

(** What was read between [s] and its suffix [rest]. *)
Definition consumed (s rest : string) : string :=
  take (String.length s - String.length rest) s.

(** Greedy repetition with backtracking: the longest run of [cls] first,
    then shorter ones until the continuation succeeds. *)
Fixpoint star {A} (cls : ascii -> bool) (s : string)
    (k : string -> option A) : option A :=
  match s with
  | String c s' =>
      if cls c then
        match star cls s' k with
        | Some x => Some x
        | None => k s
        end
      else k s
  | EmptyString => k s
  end.

(** The backtracking matcher, in continuation-passing style: [k] is the
    rest of the pattern. *)
Fixpoint run {A} (r : regex) (s : string) (caps : captures)
    (k : string -> captures -> option A) : option A :=
  match r with
  | Lit w =>
      match strip_prefix w s with
      | Some rest => k rest caps
      | None => None
      end
  | Alt r1 r2 =>
      match run r1 s caps k with
      | Some x => Some x
      | None => run r2 s caps k
      end
  | Seq r1 r2 => run r1 s caps (fun s' caps' => run r2 s' caps' k)
  | Star cls => star cls s (fun s' => k s' caps)
  | Plus cls =>
      match s with
      | String c s' =>
          if cls c then star cls s' (fun s'' => k s'' caps) else None
      | EmptyString => None
      end
  | Group i r =>
      run r s caps (fun s' caps' => k s' ((i, consumed s s') :: caps'))
  end.

(** [re.match(pattern, text)]: anchored at the start of the text. *)
Definition match_ (pattern : regex) (text : string) : option captures :=
  run pattern text [] (fun _ caps => Some caps).

(** [m.group(i)] for a group that took part in the match. *)
Fixpoint group (i : nat) (m : captures) : string :=
  match m with
  | [] => EmptyString
  | (j, w) :: m' => if Nat.eqb j i then w else group i m'
  end.

End Re.

(** ** Constants *)

Definition BASE_URL : string := "https://stardewvalleywiki.com".
Definition VILLAGERS_URL : string := BASE_URL +:+ "/Villagers".

Definition BACHELORS : list string :=
  ["Alex"; "Elliott"; "Harvey"; "Sam"; "Sebastian"; "Shane"].
Definition BACHELORETTES : list string :=
  ["Abigail"; "Emily"; "Haley"; "Leah"; "Maru"; "Penny"].
Definition MARRIAGE_CANDIDATES : list string := BACHELORS ++ BACHELORETTES.

(** ** Exceptions *)

(** The exception the program can meet and never catches. *)
Inductive exn := ValueError.

(** What a call gives: the value it returns, or the exception it raises. *)
Inductive outcome (A : Type) : Type :=
| Returns (a : A)
| Raises (e : exn).

Arguments Returns {A} a.
Arguments Raises {A} e.

(** ** Birthday *)

Record birthday := Birthday {
  season : string;
  day : Z
}.

(** [(Spring|Summer|Fall|Winter)] *)
Definition season_word : Re.regex :=
  Re.Alt (Re.Lit "Spring")
    (Re.Alt (Re.Lit "Summer") (Re.Alt (Re.Lit "Fall") (Re.Lit "Winter"))).

(** [(Spring|Summer|Fall|Winter)\s*(\d+)] *)
Definition season_day_pattern : Re.regex :=
  Re.Seq (Re.Group 1 season_word)
    (Re.Seq (Re.Star Str.isspace) (Re.Group 2 (Re.Plus Str.isdigit))).

(** [(\d+)\s*(Spring|Summer|Fall|Winter)] *)
Definition day_season_pattern : Re.regex :=
  Re.Seq (Re.Group 1 (Re.Plus Str.isdigit))
    (Re.Seq (Re.Star Str.isspace) (Re.Group 2 season_word)).

Definition digit_value (c : ascii) : Z := (Z.of_N (N_of_ascii c) - 48)%Z.

(** The interpreter's bound on the number of digits of a string that
    [int] converts: [sys.get_int_max_str_digits()], as it is set when the
    interpreter starts. *)
Definition MAX_STR_DIGITS : nat := 4300.

(** The number a string of decimal digits writes. *)
Definition int_value (s : string) : Z :=
  fold_left (fun acc c => 10 * acc + digit_value c)%Z
    (String.list_ascii_of_string s) 0%Z.

(** [int(s)] on a string of decimal digits: the number they write, or a
    [ValueError] when there are more than [MAX_STR_DIGITS] of them. *)
Definition int (s : string) : outcome Z :=
  if Nat.leb (String.length s) MAX_STR_DIGITS then Returns (int_value s)
  else Raises ValueError.

(** The two patterns tried on the text of the detail cell; the dictionary
    is returned once [int] has given the day. *)
Definition birthday_of_text (birthday_text : string)
    : outcome (option birthday) :=
  match Re.match_ season_day_pattern birthday_text with
  | Some m =>
      match int (Re.group 2 m) with
      | Returns d => Returns (Some (Birthday (Re.group 1 m) d))
      | Raises e => Raises e
      end
  | None =>
      match Re.match_ day_season_pattern birthday_text with
      | Some m =>
          match int (Re.group 1 m) with
          | Returns d => Returns (Some (Birthday (Re.group 2 m) d))
          | Raises e => Raises e
          end
      | None => Returns None
      end
  end.

(** The text the two patterns are tried on in one pass of the row loop of
    [parse_birthday], when the row is a birthday row with a detail cell. *)
Definition birthday_text_of_row (row : node) : option string :=
  match find "td" [("id", "infoboxsection")] row with
  | Some section =>
      if Str.contains "Birthday" (get_text "" false section) then
        match find "td" [("id", "infoboxdetail")] row with
        | Some detail => Some (get_text "" true detail)
        | None => None
        end
      else None
  | None => None
  end.

(** The body of the row loop of [parse_birthday]: [Returns (Some _)] is a
    [return], [Returns None] goes on to the next row. *)
Definition birthday_of_row (row : node) : outcome (option birthday) :=
  match birthday_text_of_row row with
  | Some birthday_text => birthday_of_text birthday_text
  | None => Returns None
  end.

(** A [for] loop that returns from its first pass that has a result, and
    ends on an exception. *)
Fixpoint first_return {A B} (body : A -> outcome (option B)) (l : list A)
    : outcome (option B) :=
  match l with
  | [] => Returns None
  | x :: l' =>
      match body x with
      | Returns (Some r) => Returns (Some r)
      | Returns None => first_return body l'
      | Raises e => Raises e
      end
  end.

Definition parse_birthday (soup : node) : outcome (option birthday) :=
  match find "table" [("id", "infoboxtable")] soup with
  | None => Returns None
  | Some infobox => first_return birthday_of_row (find_all "tr" [] infobox)
  end.

(** ** Portrait image *)

Definition absolute_url (src : string) : string :=
  if Str.startswith src "//" then "https:" +:+ src
  else if Str.startswith src "/" then BASE_URL +:+ src
  else src.

Definition parse_image_url (soup : node) : option string :=
  match find "table" [("id", "infoboxtable")] soup with
  | None => None
  | Some infobox =>
      match find "img" [] infobox with
      | Some img =>
          match get "src" img with
          | Some src => if Str.truthy src then Some (absolute_url src) else None
          | None => None
          end
      | None => None
      end
  end.

(** ** Schedules *)

Record schedule_entry := ScheduleEntry {
  time : string;
  location : string
}.

Record schedule_variant := ScheduleVariant {
  variant_name : string;
  entries : list schedule_entry
}.

(** One pass of the row loop of [parse_season_schedules]. *)
Definition row_step (acc : list schedule_entry) (row : node)
    : list schedule_entry :=
  match find "th" [] row with
  | Some _ => acc
  | None =>
      match find_all "td" [] row with
      | td0 :: td1 :: _ =>
          acc ++ [ScheduleEntry (get_text "" true td0) (get_text " " true td1)]
      | _ => acc
      end
  end.

(** One pass of the loop over the children of the content cell; the state
    is the current label and the variants appended so far. *)
Definition element_step (st : string * list schedule_variant)
    (element : node) : string * list schedule_variant :=
  let '(current_label, schedules) := st in
  if has_name "p" element then
    match find "b" [] element with
    | Some bold => (get_text "" true bold, schedules)
    | None => st
    end
  else if has_name "table" element && Str.mem "wikitable" (get_class element)
  then
    let schedule_data :=
      ScheduleVariant current_label
        (fold_left row_step (find_all "tr" [] element) []) in
    match entries schedule_data with
    | [] => st
    | _ :: _ => (current_label, schedules ++ [schedule_data])
    end
  else st.

Definition parse_season_schedules (season_table : node)
    : list schedule_variant :=
  match find "td" [] season_table with
  | None => []
  | Some content_cell =>
      snd (fold_left element_step (children content_cell) ("Regular", []))
  end.

(** Visiting the tag siblings that follow a tag, as the two loops
    [sibling = heading.find_next_sibling(); while sibling and sibling.name
    not in stop: ...; sibling = sibling.find_next_sibling()] do: text nodes
    are passed over, the walk ends at the first tag named in [stop]. *)
Fixpoint walk_siblings {S} (stop : list string) (body : S -> node -> S)
    (after : list node) (st : S) : S :=
  match after with
  | [] => st
  | n :: rest =>
      match name n with
      | None => walk_siblings stop body rest st
      | Some nm =>
          if Str.mem nm stop then st
          else walk_siblings stop body rest (body st n)
      end
  end.

(** ** Gift preferences *)

Definition empty_gifts : gmap string (list string) :=
  <["loved" := []]> (<["liked" := []]> (<["neutral" := []]>
    (<["disliked" := []]> (<["hated" := []]> ∅)))).

(** [gifts[category].append(item)] *)
Definition append_gift (category item : string)
    (gifts : gmap string (list string)) : gmap string (list string) :=
  <[category := (gifts !!! category) ++ [item]]> gifts.

(** The body of the link loop over the "Loved" detail cell. *)
Definition loved_link_step (gifts : gmap string (list string)) (link : node)
    : gmap string (list string) :=
  match get "title" link with
  | Some title =>
      if Str.truthy title && negb (Str.startswith title "File:") then
        let item := Str.strip title in
        if Str.truthy item && negb (Str.mem item (gifts !!! "loved"))
        then append_gift "loved" item gifts
        else gifts
      else gifts
  | None => gifts
  end.

(** The body of the row loop over the info panel. *)
Definition loved_row_step (gifts : gmap string (list string)) (row : node)
    : gmap string (list string) :=
  match find "td" [("id", "infoboxsection")] row with
  | Some section =>
      if Str.contains "Loved" (get_text "" false section) then
        match find "td" [("id", "infoboxdetail")] row with
        | Some detail => fold_left loved_link_step (find_all "a" [] detail) gifts
        | None => gifts
        end
      else gifts
  | None => gifts
  end.

Definition category_map : list (string * string) :=
  [("love", "loved"); ("like", "liked"); ("neutral", "neutral");
   ("dislike", "disliked"); ("hate", "hated")].

Definition meta_words : list string :=
  ["universal"; "category"; "gift"; "villager"].

(** The body of the link loop under a category heading. *)
Definition category_link_step (current_category : string)
    (gifts : gmap string (list string)) (link : node)
    : gmap string (list string) :=
  match get "title" link with
  | Some title =>
      if Str.truthy title && negb (Str.startswith title "File:") then
        let item := Str.strip title in
        if Str.truthy item
           && negb (Str.mem item (gifts !!! current_category)) then
          if negb (existsb (fun x => Str.contains x (Str.lower item))
                     meta_words)
          then append_gift current_category item gifts
          else gifts
        else gifts
      else gifts
  | None => gifts
  end.

Definition category_sibling_step (current_category : string)
    (gifts : gmap string (list string)) (sibling : node)
    : gmap string (list string) :=
  fold_left (category_link_step current_category)
    (find_all "a" [] sibling) gifts.

(** The body of the loop over the [h3] headings; a heading comes with the
    siblings that follow it. *)
Definition heading_step (gifts : gmap string (list string))
    (heading : node * list node) : gmap string (list string) :=
  match find "span" [("class", "mw-headline")] (fst heading) with
  | None => gifts
  | Some span =>
      let heading_text := Str.lower (get_text "" true span) in
      match assoc heading_text category_map with
      | Some current_category =>
          if Str.truthy current_category then
            walk_siblings ["h2"; "h3"]
              (category_sibling_step current_category) (snd heading) gifts
          else gifts
      | None => gifts
      end
  end.

(** The first phase: the gifts after the info panel has been read. *)
Definition infobox_gifts (soup : node) : gmap string (list string) :=
  match find "table" [("id", "infoboxtable")] soup with
  | Some infobox =>
      fold_left loved_row_step (find_all "tr" [] infobox) empty_gifts
  | None => empty_gifts
  end.

Definition parse_gift_preferences (soup : node) : gmap string (list string) :=
  let gifts := infobox_gifts soup in
  match find "div" [("id", "mw-content-text")] soup with
  | None => gifts
  | Some content =>
      fold_left heading_step (find_all_located "h3" [] content) gifts
  end.

(** ** Full schedule *)

(** The body of the sibling loop of [parse_schedule]. *)
Definition season_step (schedule : gmap string (list schedule_variant))
    (sibling : node) : gmap string (list schedule_variant) :=
  if has_name "table" sibling && Str.mem "mw-collapsible" (get_class sibling)
  then
    match find "th" [] sibling with
    | Some header =>
        let season_name :=
          match find "a" [] header with
          | Some season_link => get_text "" true season_link
          | None => get_text "" true header
          end in
        <[season_name := parse_season_schedules sibling]> schedule
    | None => schedule
    end
  else schedule.

(** The test of the heading loop: the first hit ends the loop. *)
Definition is_schedule_heading (heading : node) : bool :=
  match find "span" [("class", "mw-headline")] heading with
  | Some span => Str.contains "Schedule" (get_text "" false span)
  | None => false
  end.

Definition parse_schedule (soup : node)
    : gmap string (list schedule_variant) :=
  match find "div" [("id", "mw-content-text")] soup with
  | None => ∅
  | Some content =>
      match List.find (fun h => is_schedule_heading (fst h))
              (find_all_located "h2" [] content) with
      | None => ∅
      | Some schedule_section =>
          walk_siblings ["h2"] season_step (snd schedule_section) ∅
      end
  end.

(** ** Villagers and the collection *)

Record villager := Villager {
  villager_name : string;
  url : string;
  image_url : option string;
  villager_birthday : option birthday;
  marriageable : bool;
  gifts : gmap string (list string);
  schedule : gmap string (list schedule_variant)
}.

(** [str(n)] for an integer *)
Definition str (n : Z) : string := NilZero.string_of_int (Z.to_int n).

(** [d[k] = v] on a dictionary kept in insertion order: a key already there
    keeps its place. *)
Fixpoint dict_set {A} (k : string) (v : A) (d : list (string * A))
    : list (string * A) :=
  match d with
  | [] => [(k, v)]
  | (k', v') :: d' =>
      if String.eqb k' k then (k, v) :: d' else (k', v') :: dict_set k v d'
  end.

Definition empty_index : gmap string (gmap string string) :=
  <["Spring" := ∅]> (<["Summer" := ∅]> (<["Fall" := ∅]>
    (<["Winter" := ∅]> ∅))).

(** The body of the loop of [build_birthday_index]. *)
Definition index_step (birthdays : gmap string (gmap string string))
    (item : string * villager) : gmap string (gmap string string) :=
  let '(name, data) := item in
  match villager_birthday data with
  | Some b =>
      let day := str (day b) in
      match birthdays !! season b with
      | Some by_day => <[season b := <[day := name]> by_day]> birthdays
      | None => birthdays
      end
  | None => birthdays
  end.

(** [villagers] is the dictionary in insertion order. *)
Definition build_birthday_index (villagers : list (string * villager))
    : gmap string (gmap string string) :=
  fold_left index_step villagers empty_index.

Record metadata := Metadata {
  scraped_at : string;
  source : string;
  total_villagers : nat;
  marriage_candidates : nat
}.

Record collection := Collection {
  collection_metadata : metadata;
  villagers : list (string * villager);
  birthdays_by_date : gmap string (gmap string string)
}.

(** ** The run: what the program does to the outside, in order *)

Inductive event :=
| Print (text : string)
| Sleep
| HttpGet (url : string)
| SaveJson (filename : string) (data : collection)
| PrintSample (first_villager : villager).

Definition nl : string := String "010"%char EmptyString.

Definition str_nat (n : nat) : string := str (Z.of_nat n).

Definition non_marriage_villagers : list string :=
  ["Caroline"; "Clint"; "Demetrius"; "Dwarf"; "Evelyn"; "George";
   "Gus"; "Jas"; "Jodi"; "Kent"; "Krobus"; "Leo"; "Lewis"; "Linus";
   "Marnie"; "Pam"; "Pierre"; "Robin"; "Sandy"; "Vincent"; "Willy";
   "Wizard"].

(** Name and url of every giftable villager, and what is printed. *)
Definition get_villager_list : list (string * string) * list event :=
  let all_villagers := BACHELORS ++ BACHELORETTES ++ non_marriage_villagers in
  let villagers := map (fun name => (name, BASE_URL +:+ "/" +:+ name))
                     all_villagers in
  (villagers,
   [Print ("Found " +:+ str_nat (length villagers)
           +:+ " giftable villagers" +:+ nl)]).

Definition banner : string :=
  "==================================================".

Definition no_data_message : string :=
  "No data was scraped. Please check for errors above." +:+ nl.

Section Run.

(** The answer of the wiki to a GET of each address: the text of the
    request error, or the parsed page. *)
Variable fetch : string -> string + node.

(** The clock reading [datetime.now().isoformat()]. *)
Variable now : string.

Definition make_request (url : string) : option node * list event :=
  match fetch url with
  | inr soup => (Some soup, [Sleep; HttpGet url])
  | inl e =>
      (None,
       [Sleep; HttpGet url;
        Print ("Error fetching " +:+ url +:+ ": " +:+ e +:+ nl)])
  end.

(** The dictionary of a villager is built entry by entry; reading the
    birthday is the one entry that can raise, and nothing here catches
    it. *)
Definition scrape_villager_details (name url : string)
    : outcome (option villager) * list event :=
  let '(soup, tr) := make_request url in
  let tr := Print ("  Scraping " +:+ name +:+ "..." +:+ nl) :: tr in
  match soup with
  | None => (Returns None, tr)
  | Some soup =>
      match parse_birthday soup with
      | Returns birthday =>
          (Returns
             (Some (Villager name url (parse_image_url soup) birthday
                      (Str.mem name MARRIAGE_CANDIDATES)
                      (parse_gift_preferences soup) (parse_schedule soup))),
           tr)
      | Raises e => (Raises e, tr)
      end
  end.

(** The scraping loop over the numbered villagers; [total] is
    [len(villager_list)].  An exception ends it. *)
Fixpoint scrape_loop (total : nat) (items : list (nat * (string * string)))
    (villagers : list (string * villager)) (tr : list event)
    : outcome (list (string * villager)) * list event :=
  match items with
  | [] => (Returns villagers, tr)
  | (i, (name, url)) :: items' =>
      let tr := tr ++ [Print ("[" +:+ str_nat i +:+ "/" +:+ str_nat total
                              +:+ "]")] in
      let '(details, tr') := scrape_villager_details name url in
      match details with
      | Returns (Some details) =>
          scrape_loop total items' (dict_set name details villagers)
            (tr ++ tr')
      | Returns None => scrape_loop total items' villagers (tr ++ tr')
      | Raises e => (Raises e, tr ++ tr')
      end
  end.

(** The value is [None] for the empty dictionary returned when there is
    no villager to scrape. *)
Definition scrape_all_villagers
    : outcome (option collection) * list event :=
  let head_ := [Print (banner +:+ nl);
                Print ("Stardew Valley Villager Scraper" +:+ nl);
                Print (banner +:+ nl)] in
  let '(villager_list, tr0) := get_villager_list in
  match villager_list with
  | [] =>
      (Returns None, head_ ++ tr0 ++ [Print ("No villagers found!" +:+ nl)])
  | _ :: _ =>
      let total := length villager_list in
      let tr1 := head_ ++ tr0 ++
                 [Print ("Scraping " +:+ str_nat total +:+ " villagers..."
                         +:+ nl)] in
      let '(villagers, tr2) :=
        scrape_loop total (combine (seq 1 total) villager_list) [] tr1 in
      match villagers with
      | Returns villagers =>
          (Returns
             (Some (Collection
                      (Metadata now VILLAGERS_URL (length villagers)
                         (length (List.filter
                                    (fun kv => marriageable (snd kv))
                                    villagers)))
                      villagers (build_birthday_index villagers))),
           tr2)
      | Raises e => (Raises e, tr2)
      end
  end.

Definition save_to_json (data : collection) (filename : string)
    : list event :=
  [SaveJson filename data; Print (nl +:+ "Data saved to " +:+ filename +:+ nl)].

(** What [main] does once [scrape_all_villagers] has returned [data]. *)
Definition report (data : option collection) : list event :=
  match data with
  | Some (Collection _ (((_, first_villager) :: _) as vs) _ as d) =>
      save_to_json d "villagers.json" ++
      [Print (nl +:+ "Successfully scraped " +:+ str_nat (length vs)
              +:+ " villagers!" +:+ nl);
       Print (nl +:+ "Sample villager data structure:" +:+ nl);
       PrintSample first_villager]
  | _ => [Print no_data_message]
  end.

(** The run: how it ends and what it has done; an exception out of
    [scrape_all_villagers] ends it there. *)
Definition main : outcome unit * list event :=
  let '(data, tr) := scrape_all_villagers in
  match data with
  | Returns data => (Returns tt, tr ++ report data)
  | Raises e => (Raises e, tr)
  end.

End Run.

(** ** Reading the extractors' results *)

Definition SEASONS : list string := ["Spring"; "Summer"; "Fall"; "Winter"].

Definition GIFT_CATEGORIES : list string :=
  ["loved"; "liked"; "neutral"; "disliked"; "hated"].

(** A row of a schedule table seen as the entry the row loop takes from
    it, header cells and cells being searched among all the descendants of
    the row as the code does: none when a [th] stands anywhere below the
    row or fewer than two [td] do. *)
Definition row_entry (row : node) : option schedule_entry :=
  match find "th" [] row with
  | Some _ => None
  | None =>
      match find_all "td" [] row with
      | td0 :: td1 :: _ =>
          Some (ScheduleEntry (get_text "" true td0) (get_text " " true td1))
      | _ => None
      end
  end.

Definition is_wikitable (n : node) : bool :=
  has_name "table" n && Str.mem "wikitable" (get_class n).

(** The label a child of the content cell sets, if it sets one. *)
Definition label_of (n : node) : option string :=
  if has_name "p" n then get_text "" true <$> find "b" [] n else None.

(** The data tables among the children of a content cell, in document
    order, each with the label in force where it stands. *)
Fixpoint schedule_tables (label : string) (l : list node)
    : list (string * node) :=
  match l with
  | [] => []
  | n :: l' =>
      if has_name "p" n then schedule_tables (default label (label_of n)) l'
      else if is_wikitable n then (label, n) :: schedule_tables label l'
      else schedule_tables label l'
  end.

(** The variant a labelled data table stands for, empty or not. *)
Definition variant_of (lt : string * node) : schedule_variant :=
  ScheduleVariant (fst lt) (omap row_entry (find_all "tr" [] (snd lt))).

Definition has_entries (v : schedule_variant) : bool :=
  match entries v with [] => false | _ :: _ => true end.

(** The children of the content cell of a season block; none when the
    block has no cell. *)
Definition content_children (season_table : node) : list node :=
  match find "td" [] season_table with
  | Some content_cell => children content_cell
  | None => []
  end.

(** The same, as the specification words it, by the rows of the table and
    the cells of each row.  The cells of a row are its [td] children, its
    header cells its [th] children. *)
Definition own_cells (row : node) : list node :=
  List.filter (has_name "td") (children row).

Definition own_header_cells (row : node) : list node :=
  List.filter (has_name "th") (children row).

(** A header row and a row with fewer than two cells are skipped; else
    the first cell is the time and the second cell's space-joined text
    the location. *)
Definition own_row_entry (row : node) : option schedule_entry :=
  match own_header_cells row with
  | _ :: _ => None
  | [] =>
      match own_cells row with
      | c0 :: c1 :: _ =>
          Some (ScheduleEntry (get_text "" true c0) (get_text " " true c1))
      | _ => None
      end
  end.

(** The rows of a table are its [tr] children and the [tr] children of its
    [thead], [tbody] and [tfoot] children. *)
Definition own_rows (table : node) : list node :=
  flat_map
    (fun c =>
       if has_name "tr" c then [c]
       else if Str.mem (default "" (name c)) ["thead"; "tbody"; "tfoot"]
            then List.filter (has_name "tr") (children c)
            else [])
    (children table).

Definition own_variant_of (lt : string * node) : schedule_variant :=
  ScheduleVariant (fst lt) (omap own_row_entry (own_rows (snd lt))).

(** A table without nesting: every [tr] below it is one of its rows, and
    every [td] and [th] below a row is a cell of that row. *)
Definition flat_row (row : node) : Prop :=
  find_all "td" [] row = own_cells row
  ∧ find_all "th" [] row = own_header_cells row.

Definition flat_table (table : node) : Prop :=
  find_all "tr" [] table = own_rows table
  ∧ Forall flat_row (own_rows table).

(** The labelled data tables of a season block. *)
Definition season_tables (season_table : node) : list (string * node) :=
  schedule_tables "Regular" (content_children season_table).

(** The season name a sibling of the schedule heading gives, when it is a
    collapsible table with a header cell. *)
Definition season_name_of (sibling : node) : option string :=
  if has_name "table" sibling && Str.mem "mw-collapsible" (get_class sibling)
  then
    match find "th" [] sibling with
    | Some header =>
        Some (match find "a" [] header with
              | Some season_link => get_text "" true season_link
              | None => get_text "" true header
              end)
    | None => None
    end
  else None.

(** The season blocks among the siblings that follow the schedule heading,
    in document order, up to the next top-level heading. *)
Fixpoint season_blocks (after : list node) : list (string * node) :=
  match after with
  | [] => []
  | n :: rest =>
      if has_name "h2" n then []
      else match season_name_of n with
           | Some s => (s, n) :: season_blocks rest
           | None => season_blocks rest
           end
  end.

(** The siblings that follow the schedule heading; none when the document
    has no content area or no such heading. *)
Definition schedule_span (soup : node) : list node :=
  match find "div" [("id", "mw-content-text")] soup with
  | None => []
  | Some content =>
      match List.find (fun h => is_schedule_heading (fst h))
              (find_all_located "h2" [] content) with
      | None => []
      | Some schedule_section => snd schedule_section
      end
  end.

(** Reading the date index at a season and a day key. *)
Definition index_lookup (birthdays : gmap string (gmap string string))
    (season key : string) : option string :=
  match birthdays !! season with
  | Some by_day => by_day !! key
  | None => None
  end.

Definition has_birthday (s : string) (d : Z) (data : villager) : Prop :=
  villager_birthday data = Some (Birthday s d).

(** An item as the link loops form it: the stripped title of a link whose
    title, as written, does not start with the file prefix. *)
Definition stripped_title (item : string) : Prop :=
  ∃ title, Str.startswith title "File:" = false ∧ item = Str.strip title.

(** [g'] is [g] after some appends that kept every category free of
    duplicates: categories stay, items stay, a category without duplicates
    is still without, and what came in is a stripped title. *)
Definition gifts_grow (g g' : gmap string (list string)) : Prop :=
  ∀ cat,
    (is_Some (g !! cat) → is_Some (g' !! cat))
    ∧ (∀ item, In item (g !!! cat) → In item (g' !!! cat))
    ∧ (NoDup (g !!! cat) → NoDup (g' !!! cat))
    ∧ (∀ item, In item (g' !!! cat) →
         In item (g !!! cat) ∨ stripped_title item).

(** The key under which a villager is entered in the index, if any. *)
Definition birthday_key (data : villager) : option (string * string) :=
  (λ b, (season b, str (day b))) <$> villager_birthday data.

(** The name of the last villager, in dictionary order, entered under the
    season [s] and the day key [k]. *)
Fixpoint last_named (s k : string) (vs : list (string * villager))
    : option string :=
  match vs with
  | [] => None
  | (name, data) :: vs' =>
      match last_named s k vs' with
      | Some later => Some later
      | None =>
          if bool_decide (birthday_key data = Some (s, k)) then Some name
          else None
      end
  end.

Definition is_save (e : event) : bool :=
  match e with SaveJson _ _ => true | _ => false end.

(** A stretch of the run in which nothing is saved. *)
Definition no_save (tr : list event) : Prop :=
  Forall (λ e, is_save e = false) tr.

(** Every character of [s] is in the class [cls]. *)
Fixpoint all_in (cls : ascii → bool) (s : string) : bool :=
  match s with
  | EmptyString => true
  | String c s' => cls c && all_in cls s'
  end.

Definition all_digits (s : string) : bool := all_in Str.isdigit s.

(** [s] does not begin with a character of the class [cls]. *)
Definition stops (cls : ascii → bool) (s : string) : bool :=
  match s with
  | EmptyString => true
  | String c _ => negb (cls c)
  end.

(** What reading the season [S] and the digits [D] gives: the birthday,
    or the exception of [int]. *)
Definition birthday_from (S D : string) : outcome (option birthday) :=
  match int D with
  | Returns d => Returns (Some (Birthday S d))
  | Raises e => Raises e
  end.


(** [schedule[name] = parse_season_schedules(block)] for one block. *)
Definition bind_block (schedule : gmap string (list schedule_variant))
    (block : string * node) : gmap string (list schedule_variant) :=
  <[fst block := parse_season_schedules (snd block)]> schedule.


(** ** Reading the rest of the program *)

(** The test of the heading walk on navigation and meta links. *)
Definition mentions_meta_word (item : string) : bool :=
  existsb (fun x => Str.contains x (Str.lower item)) meta_words.

(** The categories only the heading walk fills. *)
Definition HEADING_CATEGORIES : list string :=
  ["liked"; "neutral"; "disliked"; "hated"].

(** [g'] is [g] after a sequence of [gifts[category].append(item)], each
    with a category and an item that satisfy [Q]. *)
Inductive appended (Q : string → string → Prop)
    : gmap string (list string) → gmap string (list string) → Prop :=
| appended_none g : appended Q g g
| appended_more g g' category item :
    appended Q g g' → Q category item →
    appended Q g (append_gift category item g').

(** What the info panel may append. *)
Definition loved_item (category item : string) : Prop :=
  category = "loved" ∧ item ≠ "".

(** What the heading walk may append. *)
Definition heading_item (category item : string) : Prop :=
  In category GIFT_CATEGORIES ∧ item ≠ "" ∧ mentions_meta_word item = false.

(** A villager the index can take: it has a birthday, in a season that is
    a key of the index. *)
Definition indexable (item : string * villager) : bool :=
  match villager_birthday (snd item) with
  | Some b => Str.mem (season b) SEASONS
  | None => false
  end.

(** The record of a villager whose page is [soup], [b] being the birthday
    read from it. *)
Definition villager_of (name url : string) (soup : node)
    (b : option birthday) : villager :=
  Villager name url (parse_image_url soup) b
    (Str.mem name MARRIAGE_CANDIDATES)
    (parse_gift_preferences soup) (parse_schedule soup).

(** The entry of the collection a listed villager gives: none when the
    request for its page fails, an exception when the birthday of the
    page cannot be read. *)
Definition scraped (fetch : string → string + node)
    (nu : string * string) : outcome (option (string * villager)) :=
  match fetch (snd nu) with
  | inr soup =>
      match parse_birthday soup with
      | Returns b =>
          Returns (Some (fst nu, villager_of (fst nu) (snd nu) soup b))
      | Raises e => Raises e
      end
  | inl _ => Returns None
  end.

(** The value a call has returned, if it has. *)
Definition returned {A} (o : outcome (option A)) : option A :=
  match o with
  | Returns a => a
  | Raises _ => None
  end.

(** [lstrip] on the list of the characters. *)
Fixpoint drop_space (l : list ascii) : list ascii :=
  match l with
  | [] => []
  | c :: l' => if Str.isspace c then drop_space l' else l
  end.

(** [int_value] from a value already read. *)
Definition int_from (s : string) (acc : Z) : Z :=
  fold_left (λ acc c, 10 * acc + digit_value c)%Z
    (String.list_ascii_of_string s) acc.

(** The events on the network side: the pause and the request. *)
Definition is_request (e : event) : bool :=
  match e with Sleep | HttpGet _ => true | _ => false end.

(** ** Small pages and collections to run the extractors on *)

Module Pages.

Definition text (s : string) : node := NavigableString s.

Definition el (nm : string) (cs : list node) : node := Tag nm [] None cs.

(** An info-panel row: a label cell and a detail cell. *)
Definition info_row (label : string) (detail : list node) : node :=
  el "tr" [Tag "td" [("id", "infoboxsection")] None [text label];
           Tag "td" [("id", "infoboxdetail")] None detail].

Definition infobox (rows : list node) : node :=
  Tag "table" [("id", "infoboxtable")] None rows.

Definition link (title : string) : node :=
  Tag "a" [("title", title)] None [].

Definition headline (level label : string) : node :=
  el level [Tag "span" [] (Some ["mw-headline"]) [text label]].

Definition content (cs : list node) : node :=
  Tag "div" [("id", "mw-content-text")] None cs.

(** A page whose info panel gives the birthday as [birthday_text]. *)
Definition birthday_row (birthday_text : string) : node :=
  info_row "Birthday" [text birthday_text].

Definition birthday_box (birthday_text : string) : node :=
  infobox [info_row "Lives In" [text "Pelican Town"];
           birthday_row birthday_text].

Definition birthday_page (birthday_text : string) : node :=
  el "html" [birthday_box birthday_text].

(** Two portraits: the first without address, the second with one. *)
Definition bare_image : node := Tag "img" [("alt", "Portrait")] None [].

Definition two_images_box : node :=
  infobox [el "tr" [el "td" [bare_image;
                             Tag "img" [("src", "/images/x.png")] None []]]].

Definition two_images_page : node := el "html" [two_images_box].

Definition portrait : node := Tag "img" [("src", "/images/x.png")] None [].

Definition portrait_box : node := infobox [el "tr" [el "td" [portrait]]].

Definition portrait_page : node := el "html" [portrait_box].

(** A "Loved" row whose only link is a thumbnail, its title written with
    a space before the file prefix. *)
Definition spaced_file_title : string := " File:Pizza.png".

Definition loved_thumbnail_page : node :=
  el "html" [infobox [info_row "Loved Gifts" [link spaced_file_title]]].

(** The same link under a "Like" heading. *)
Definition liked_thumbnail_page : node :=
  el "html" [content [headline "h3" "Like";
                      el "p" [link spaced_file_title]]].

(** "Pizza" in the info panel and under the "Love" heading. *)
Definition pizza_page : node :=
  el "html" [infobox [info_row "Loved Gifts" [link "Pizza"]];
             content [headline "h3" "Love";
                      el "p" [link "Pizza"; link "Cake"]]].

Definition schedule_row (t l : string) : node :=
  el "tr" [el "td" [text t]; el "td" [text l]].

Definition wikitable (rows : list node) : node :=
  Tag "table" [] (Some ["wikitable"])
    (el "tr" [el "th" [text "Time"]; el "th" [text "Location"]] :: rows).

Definition season_block (season_name : string) (cell : list node) : node :=
  Tag "table" [] (Some ["mw-collapsible"])
    [el "tr" [el "th" [el "a" [text season_name]]];
     el "tr" [el "td" cell]].

(** A rain variant with two rows, then a table with a header only. *)
Definition rain_table : node :=
  wikitable [schedule_row "9am" "Home"; schedule_row "1pm" "Saloon"].

Definition spring_block : node :=
  season_block "Spring"
    [el "p" [el "b" [text "Rain"]]; rain_table; wikitable []].

(** A data table whose one row has a single cell, and in that cell a
    plain table with a row of two cells. *)
Definition nested_table : node :=
  wikitable
    [el "tr" [el "td" [text "9am";
                       el "table" [schedule_row "a" "b"]]]].

Definition nested_block : node := season_block "Fall" [nested_table].

Definition spring_block_again : node :=
  season_block "Spring" [wikitable [schedule_row "8am" "Beach"]].

(** A schedule section with two blocks that both say "Spring". *)
Definition two_springs_page : node :=
  el "html" [content [headline "h2" "Schedule";
                      spring_block; spring_block_again;
                      headline "h2" "Trivia"]].

Definition with_birthday (name : string) (b : option birthday) : villager :=
  Villager name (BASE_URL +:+ "/" +:+ name) None b false empty_gifts ∅.

(** Two villagers born on the same day, and one without a birthday. *)
Definition shared_birthday : list (string * villager) :=
  [("Abigail", with_birthday "Abigail" (Some (Birthday "Fall" 13)));
   ("Krobus", with_birthday "Krobus" None);
   ("Sam", with_birthday "Sam" (Some (Birthday "Fall" 13)))].

(** A wiki that answers every request with an error. *)
Definition unreachable (url : string) : string + node := inl "timed out".

(** A wiki where only the pages of Sam and of Penny come back, both with
    the birthday "Summer 13". *)
Definition two_pages (url : string) : string + node :=
  if String.eqb url (BASE_URL +:+ "/Sam")
     || String.eqb url (BASE_URL +:+ "/Penny")
  then inr (birthday_page "Summer 13")
  else inl "timed out".

(** A portrait given by a full address. *)
Definition full_portrait : node :=
  Tag "img" [("src", BASE_URL +:+ "/images/x.png")] None [].

Definition full_portrait_box : node :=
  infobox [el "tr" [el "td" [full_portrait]]].

Definition full_portrait_page : node := el "html" [full_portrait_box].

(** The collection a run over [two_pages] builds. *)
Definition two_pages_collection : collection :=
  let vs := omap (λ nu, returned (scraped two_pages nu))
              (fst get_villager_list) in
  Collection
    (Metadata "2026-01-01" VILLAGERS_URL (length vs)
       (length (List.filter (λ kv, marriageable (snd kv)) vs)))
    vs (build_birthday_index vs).



End Pages.

(** * Properties *)

(** ** The document tree *)

Section Tree.

(** The two walks visit the same nodes in the same order. *)
Lemma descendants_located_fst : ∀ n,
  map fst (descendants_located n) = descendants n.
Proof.
  fix IH 1. intros [s|nm attrs cls cs]; [done|]. simpl.
  induction cs as [|c cs IHcs]; [done|].
  simpl. by rewrite map_app, IH, IHcs.
Qed.

Lemma find_all_located_fst nm want n :
  map fst (find_all_located nm want n) = find_all nm want n.
Proof.
  unfold find_all_located, find_all. rewrite <- descendants_located_fst.
  induction (descendants_located n) as [|[c after] l IH]; [done|].
  simpl. destruct (matches nm want c); simpl; by rewrite IH.
Qed.

(** The sibling walk, one turn of the source's loop at a time. *)
Lemma walk_siblings_unroll {S} stop (body : S → node → S) after st :
  walk_siblings stop body after st =
  match find_next_sibling after with
  | None => st
  | Some (sibling, rest) =>
      if Str.mem (default "" (name sibling)) stop then st
      else walk_siblings stop body rest (body st sibling)
  end.
Proof.
  induction after as [|n rest IH]; [done|].
  destruct n as [s|nm attrs cls cs]; simpl; [apply IH|done].
Qed.

End Tree.

(** ** Season schedules *)

Section SeasonSchedules.

Lemma row_step_entry acc row :
  row_step acc row = acc ++ option_list (row_entry row).
Proof.
  unfold row_step, row_entry.
  destruct (find "th" [] row); [by rewrite app_nil_r|].
  destruct (find_all "td" [] row) as [|td0 [|td1 tds]];
    simpl; by rewrite ?app_nil_r.
Qed.

Lemma fold_row_step rows : ∀ acc,
  fold_left row_step rows acc = acc ++ omap row_entry rows.
Proof.
  induction rows as [|row rows IH]; intros acc; simpl.
  - by rewrite app_nil_r.
  - rewrite IH, row_step_entry.
    destruct (row_entry row); simpl; by rewrite <- ?app_assoc, ?app_nil_r.
Qed.

Lemma fold_element_step l : ∀ label acc,
  snd (fold_left element_step l (label, acc)) =
  acc ++ List.filter has_entries (map variant_of (schedule_tables label l)).
Proof.
  induction l as [|n l IH]; intros label acc; simpl.
  - by rewrite app_nil_r.
  - unfold label_of, is_wikitable.
    destruct (has_name "p" n) eqn:Hp.
    + destruct (find "b" [] n) as [bold|]; simpl; apply IH.
    + destruct (has_name "table" n && Str.mem "wikitable" (get_class n))
        eqn:Hw; [|apply IH].
      rewrite fold_row_step. simpl.
      unfold has_entries at 1, variant_of at 1. simpl.
      destruct (omap _ _) eqn:He.
      * apply IH.
      * rewrite IH, <- app_assoc. simpl. do 2 f_equal.
        unfold variant_of. simpl. by rewrite He.
Qed.

Lemma parse_season_schedules_tables season_table :
  parse_season_schedules season_table =
  List.filter has_entries (map variant_of (season_tables season_table)).
Proof.
  unfold parse_season_schedules, season_tables, content_children.
  destruct (find "td" [] season_table) as [cell|]; [|done].
  by rewrite fold_element_step.
Qed.

Lemma flat_row_entry row : flat_row row → row_entry row = own_row_entry row.
Proof.
  intros [Htd Hth]. unfold row_entry, own_row_entry, find.
  rewrite Hth, Htd. by destruct (own_header_cells row).
Qed.

Lemma flat_rows_entries rows :
  Forall flat_row rows → omap row_entry rows = omap own_row_entry rows.
Proof.
  induction 1 as [|row rows Hrow _ IH]; [done|].
  unfold omap in *. simpl. by rewrite (flat_row_entry row Hrow), IH.
Qed.

Lemma flat_table_variant lt :
  flat_table (snd lt) → variant_of lt = own_variant_of lt.
Proof.
  intros [Hrows Hflat]. unfold variant_of, own_variant_of. rewrite Hrows.
  f_equal. by apply flat_rows_entries.
Qed.

End SeasonSchedules.

(** C1, as the code has it. For every season block, the variants
    [parse_season_schedules] returns are the data tables of the content
    cell that yield at least one entry, in document order, each under the
    label in force: no returned variant has an empty entry list and every
    data table with an entry is returned.  The entries of a data table are
    taken from every [tr] below it, rows of tables nested in its cells
    included, that has no [th] below it and at least two [td] below it,
    in document order: the first such [td] is the time, the second one's
    space-joined text the location.  For data tables without nesting
    these are the rows and the cells the specification names. *)
Theorem parse_season_schedules_variants (season_table : node) :
  parse_season_schedules season_table =
    List.filter has_entries (map variant_of (season_tables season_table))
  ∧ Forall (λ v, entries v ≠ []) (parse_season_schedules season_table)
  ∧ (∀ lt, In lt (season_tables season_table) →
       entries (variant_of lt) ≠ [] →
       In (variant_of lt) (parse_season_schedules season_table))
  ∧ (Forall (λ lt, flat_table (snd lt)) (season_tables season_table) →
     parse_season_schedules season_table =
       List.filter has_entries
         (map own_variant_of (season_tables season_table))).
Proof.
  rewrite parse_season_schedules_tables.
  split; [done|]. split; [|split].
  - apply List.Forall_forall. intros v Hv.
    apply filter_In in Hv as [_ Hv]. unfold has_entries in Hv.
    by destruct (entries v).
  - intros lt Hlt Hne.
    apply filter_In. split; [by apply in_map|].
    unfold has_entries. by destruct (entries (variant_of lt)).
  - intros Hflat. f_equal. apply map_ext_in. intros lt Hlt.
    apply flat_table_variant.
    rewrite List.Forall_forall in Hflat. by apply Hflat.
Qed.

(** C1 as stated fails: with the rows of a table and the cells of a row
    as the specification names them, the one row of the table of
    [Pages.nested_table] has a single cell and gives no entry, so that no
    variant should be returned; the code finds the cells of the nested
    table below that row and returns a variant with two entries. *)
Lemma parse_season_schedules_nested_cell :
  ¬ (∀ season_table,
       parse_season_schedules season_table =
       List.filter has_entries
         (map own_variant_of (season_tables season_table))).
Proof. intros H. specialize (H Pages.nested_block). by vm_compute in H. Qed.

(** ** Full schedule *)

Section Schedule.

Lemma walk_season_blocks after : ∀ schedule,
  walk_siblings ["h2"] season_step after schedule =
  fold_left bind_block (season_blocks after) schedule.
Proof.
  induction after as [|n rest IH]; intros schedule; [done|].
  simpl. unfold has_name, season_step, season_name_of.
  destruct n as [txt|nm attrs cls cs]; simpl.
  - apply IH.
  - rewrite orb_false_r. destruct (String.eqb nm "h2"); [done|].
    rewrite IH. unfold has_name. simpl.
    destruct (String.eqb nm "table" && _); [|done].
    by destruct (find "th" [] _).
Qed.

Lemma parse_schedule_blocks soup :
  parse_schedule soup =
  fold_left bind_block (season_blocks (schedule_span soup)) ∅.
Proof.
  unfold parse_schedule, schedule_span.
  destruct (find "div" _ soup) as [content|]; [|done].
  destruct (List.find _ _) as [section|]; [|done].
  apply walk_season_blocks.
Qed.

Lemma fold_bind_block_other s blocks : ∀ schedule,
  Forall (λ b, fst b ≠ s) blocks →
  fold_left bind_block blocks schedule !! s = schedule !! s.
Proof.
  induction blocks as [|b blocks IH]; intros schedule Hb; [done|].
  apply Forall_cons in Hb as [Hne Hb]. simpl.
  rewrite IH by done. unfold bind_block. by rewrite lookup_insert_ne.
Qed.

Lemma fold_bind_block_last s t pre post schedule :
  Forall (λ b, fst b ≠ s) post →
  fold_left bind_block (pre ++ (s, t) :: post) schedule !! s =
  Some (parse_season_schedules t).
Proof.
  intros Hpost. rewrite fold_left_app. simpl.
  rewrite fold_bind_block_other by done.
  unfold bind_block at 1. simpl. by rewrite lookup_insert_eq.
Qed.

End Schedule.

(** C9. When the season blocks that follow the schedule heading are
    [pre], then a block named [s], then [post], and no block of [post] is
    named [s], the mapping [parse_schedule] returns binds [s] to the
    variants of that last block alone, whatever blocks named [s] stand in
    [pre]. *)
Theorem parse_schedule_last_block_wins (soup : node) (s : string)
    (t : node) (pre post : list (string * node)) :
  season_blocks (schedule_span soup) = pre ++ (s, t) :: post →
  Forall (λ b, fst b ≠ s) post →
  parse_schedule soup !! s = Some (parse_season_schedules t).
Proof.
  intros Hblocks Hpost.
  rewrite parse_schedule_blocks, Hblocks.
  by apply fold_bind_block_last.
Qed.

(** ** Date index *)

Section DateIndex.

Lemma str_inj d d' : str d = str d' → d = d'.
Proof.
  unfold str. intros H. apply DecimalZ.to_int_inj.
  assert (Hnn : ∀ z, Z.to_int z ≠ Decimal.Pos Decimal.Nil
                     ∧ Z.to_int z ≠ Decimal.Neg Decimal.Nil).
  { intros [|p|p]; simpl; split; try discriminate;
      intros [= Hp]; by apply DecimalPos.Unsigned.to_uint_nonnil in Hp. }
  destruct (Hnn d) as [Hd1 Hd2]. destruct (Hnn d') as [Hd1' Hd2'].
  pose proof (NilZero.isi _ Hd1 Hd2) as E.
  pose proof (NilZero.isi _ Hd1' Hd2') as E'.
  rewrite H in E. congruence.
Qed.

Lemma birthday_key_spec s d data :
  birthday_key data = Some (s, str d) ↔ has_birthday s d data.
Proof.
  unfold birthday_key, has_birthday.
  destruct (villager_birthday data) as [[s' d']|]; simpl; split;
    try done.
  - intros [= -> Hd]. apply str_inj in Hd. by subst.
  - by intros [= -> ->].
Qed.

Lemma index_step_season idx item s :
  is_Some (index_step idx item !! s) ↔ is_Some (idx !! s).
Proof.
  destruct item as [name data]. unfold index_step.
  destruct (villager_birthday data) as [b|]; [|done].
  destruct (idx !! season b) as [by_day|] eqn:Hs; [|done].
  destruct (decide (season b = s)) as [<-|Hne].
  - rewrite lookup_insert_eq, Hs. split; eauto.
  - by rewrite lookup_insert_ne.
Qed.

Lemma index_step_lookup idx name data s k :
  is_Some (idx !! s) →
  index_lookup (index_step idx (name, data)) s k =
  if bool_decide (birthday_key data = Some (s, k)) then Some name
  else index_lookup idx s k.
Proof.
  intros [by_day Hs]. unfold index_step, birthday_key, index_lookup.
  destruct (villager_birthday data) as [b|]; simpl.
  - destruct (decide (season b = s)) as [<-|Hne].
    + rewrite Hs, lookup_insert_eq.
      destruct (decide (str (day b) = k)) as [<-|Hk].
      * by rewrite bool_decide_eq_true_2, lookup_insert_eq.
      * rewrite bool_decide_eq_false_2 by congruence.
        by rewrite lookup_insert_ne.
    + rewrite bool_decide_eq_false_2 by congruence.
      destruct (idx !! season b); [|done]. by rewrite lookup_insert_ne.
  - done.
Qed.

Lemma fold_index_lookup vs : ∀ idx s k,
  is_Some (idx !! s) →
  index_lookup (fold_left index_step vs idx) s k =
  match last_named s k vs with
  | Some name => Some name
  | None => index_lookup idx s k
  end.
Proof.
  induction vs as [|[name data] vs IH]; intros idx s k Hs; [done|].
  cbn [fold_left last_named]. rewrite IH by (by apply index_step_season).
  destruct (last_named s k vs); [done|].
  rewrite index_step_lookup by done.
  by destruct (bool_decide _).
Qed.

Lemma fold_index_no_season vs : ∀ idx s k,
  idx !! s = None → index_lookup (fold_left index_step vs idx) s k = None.
Proof.
  induction vs as [|item vs IH]; intros idx s k Hs; cbn [fold_left].
  - unfold index_lookup. by rewrite Hs.
  - apply IH. apply eq_None_not_Some. rewrite index_step_season.
    by apply eq_None_not_Some.
Qed.

Lemma empty_index_season s : is_Some (empty_index !! s) ↔ In s SEASONS.
Proof.
  unfold empty_index, SEASONS. simpl.
  rewrite !lookup_insert_is_Some, lookup_empty, is_Some_alt.
  intuition congruence.
Qed.

Lemma empty_index_lookup s k : index_lookup empty_index s k = None.
Proof.
  unfold index_lookup, empty_index.
  repeat (rewrite lookup_insert; case_decide; [done|]).
  by rewrite lookup_empty.
Qed.

Lemma build_birthday_index_lookup vs s k :
  index_lookup (build_birthday_index vs) s k =
  if bool_decide (In s SEASONS) then last_named s k vs else None.
Proof.
  unfold build_birthday_index. case_bool_decide as Hs.
  - rewrite fold_index_lookup by (by apply empty_index_season).
    rewrite empty_index_lookup. by destruct (last_named s k vs).
  - apply fold_index_no_season. apply eq_None_not_Some.
    by rewrite empty_index_season.
Qed.

Lemma last_named_Some s k vs name :
  last_named s k vs = Some name →
  ∃ data, In (name, data) vs ∧ birthday_key data = Some (s, k).
Proof.
  induction vs as [|[n data] vs IH]; [done|]. simpl.
  destruct (last_named s k vs) as [later|].
  - intros [= ->]. destruct IH as (data' & ? & ?); eauto.
  - case_bool_decide; [|done]. intros [= ->]. eauto.
Qed.

Lemma last_named_None s k vs :
  last_named s k vs = None →
  Forall (λ it, birthday_key (snd it) ≠ Some (s, k)) vs.
Proof.
  induction vs as [|[n data] vs IH]; [constructor|]. simpl.
  destruct (last_named s k vs); [done|].
  case_bool_decide; [done|]. intros _. constructor; auto.
Qed.

Lemma last_named_last s k pre name data post :
  birthday_key data = Some (s, k) →
  Forall (λ it, birthday_key (snd it) ≠ Some (s, k)) post →
  last_named s k (pre ++ (name, data) :: post) = Some name.
Proof.
  intros Hkey Hpost.
  assert (Hp : last_named s k post = None).
  { induction Hpost as [|[n d] post Hn _ IH]; [done|]. simpl.
    by rewrite IH, bool_decide_eq_false_2. }
  induction pre as [|[n d] pre IH]; simpl.
  - by rewrite Hp, bool_decide_eq_true_2.
  - by rewrite IH.
Qed.

End DateIndex.

(** C3. For every entities mapping, in dictionary order: the index has an
    entry under a season of the calendar and the day string of [d] exactly
    when some entity has the birthday ([s], [d]); the entry is the name of
    the last such entity in mapping order; and every name in the index is
    a key of the mapping. *)
Theorem build_birthday_index_entries (vs : list (string * villager)) :
  (∀ s d, In s SEASONS →
     (is_Some (index_lookup (build_birthday_index vs) s (str d)) ↔
      ∃ name data, In (name, data) vs ∧ has_birthday s d data))
  ∧ (∀ s d pre name data post, In s SEASONS →
       vs = pre ++ (name, data) :: post →
       has_birthday s d data →
       Forall (λ it, ¬ has_birthday s d (snd it)) post →
       index_lookup (build_birthday_index vs) s (str d) = Some name)
  ∧ (∀ s k name,
       index_lookup (build_birthday_index vs) s k = Some name →
       In name (map fst vs)).
Proof.
  split; [|split].
  - intros s d Hs. rewrite build_birthday_index_lookup.
    rewrite bool_decide_eq_true_2 by done. split.
    + intros [name Hn]. apply last_named_Some in Hn as (data & Hin & Hk).
      exists name, data. by rewrite <- birthday_key_spec.
    + intros (name & data & Hin & Hb).
      destruct (last_named s (str d) vs) eqn:Hl; [eauto|].
      apply last_named_None in Hl. rewrite List.Forall_forall in Hl.
      apply Hl in Hin. by apply birthday_key_spec in Hb.
  - intros s d pre name data post Hs -> Hb Hpost.
    rewrite build_birthday_index_lookup.
    rewrite bool_decide_eq_true_2 by done.
    apply last_named_last; [by apply birthday_key_spec|].
    eapply Forall_impl; [exact Hpost|]. intros it Hn.
    by rewrite birthday_key_spec.
  - intros s k name. rewrite build_birthday_index_lookup.
    case_bool_decide; [|done]. intros Hn.
    apply last_named_Some in Hn as (data & Hin & _).
    apply in_map_iff. by exists (name, data).
Qed.

(** ** Gift preferences *)

Section Gifts.

Implicit Types g : gmap string (list string).

Lemma mem_In x l : Str.mem x l = true ↔ In x l.
Proof.
  unfold Str.mem. rewrite existsb_exists. split.
  - intros (y & Hy & Heq). apply String.eqb_eq in Heq. by subst.
  - intros Hx. exists x. by rewrite String.eqb_refl.
Qed.

Lemma gifts_grow_refl g : gifts_grow g g.
Proof. intros cat. repeat split; auto. Qed.

Lemma gifts_grow_trans g1 g2 g3 :
  gifts_grow g1 g2 → gifts_grow g2 g3 → gifts_grow g1 g3.
Proof.
  intros H12 H23 cat.
  destruct (H12 cat) as (?&?&?&Hfrom12), (H23 cat) as (?&?&?&Hfrom23).
  repeat split; auto.
  intros item [Hin|Hs]%Hfrom23; [by apply Hfrom12|by right].
Qed.

Lemma gifts_grow_append cat item g :
  Str.mem item (g !!! cat) = false → stripped_title item →
  gifts_grow g (append_gift cat item g).
Proof.
  intros Hnew Hitem cat'. unfold append_gift.
  destruct (decide (cat = cat')) as [<-|Hne].
  - rewrite lookup_insert_eq, lookup_total_insert_eq.
    split; [eauto|]. split; [|split].
    + intros x Hx. apply in_or_app. by left.
    + intros Hnd. apply NoDup_app.
      split; [done|]. split.
      * intros x Hx ->%list_elem_of_singleton.
        apply list_elem_of_In, mem_In in Hx. congruence.
      * apply NoDup_singleton.
    + intros x [Hx|[<-|[]]]%in_app_or; [by left|by right].
  - rewrite lookup_insert_ne, lookup_total_insert_ne by done.
    apply gifts_grow_refl.
Qed.

Lemma fold_left_grow {A} (f : gmap string (list string) → A → _) l :
  (∀ g x, gifts_grow g (f g x)) → ∀ g, gifts_grow g (fold_left f l g).
Proof.
  intros Hf. induction l as [|x l IH]; intros g; simpl.
  - apply gifts_grow_refl.
  - eapply gifts_grow_trans; [apply Hf | apply IH].
Qed.

Lemma walk_siblings_grow stop
    (f : gmap string (list string) → node → _) after :
  (∀ g x, gifts_grow g (f g x)) →
  ∀ g, gifts_grow g (walk_siblings stop f after g).
Proof.
  intros Hf. induction after as [|n rest IH]; intros g; simpl.
  - apply gifts_grow_refl.
  - destruct (name n) as [nm|]; [|apply IH].
    destruct (Str.mem nm stop); [apply gifts_grow_refl|].
    eapply gifts_grow_trans; [apply Hf | apply IH].
Qed.

Lemma loved_link_step_grow g link : gifts_grow g (loved_link_step g link).
Proof.
  unfold loved_link_step.
  destruct (get "title" link) as [title|]; [|apply gifts_grow_refl].
  destruct (Str.truthy title); simpl; [|apply gifts_grow_refl].
  destruct (Str.startswith title "File:") eqn:Hfile; simpl;
    [apply gifts_grow_refl|].
  destruct (Str.truthy _); simpl; [|apply gifts_grow_refl].
  destruct (Str.mem _ _) eqn:Hm; simpl; [apply gifts_grow_refl|].
  apply gifts_grow_append; [done|]. by exists title.
Qed.

Lemma loved_row_step_grow g row : gifts_grow g (loved_row_step g row).
Proof.
  unfold loved_row_step.
  destruct (find "td" _ row); [|apply gifts_grow_refl].
  destruct (Str.contains _ _); [|apply gifts_grow_refl].
  destruct (find "td" _ row); [|apply gifts_grow_refl].
  apply fold_left_grow, loved_link_step_grow.
Qed.

Lemma category_link_step_grow cat g link :
  gifts_grow g (category_link_step cat g link).
Proof.
  unfold category_link_step.
  destruct (get "title" link) as [title|]; [|apply gifts_grow_refl].
  destruct (Str.truthy title); simpl; [|apply gifts_grow_refl].
  destruct (Str.startswith title "File:") eqn:Hfile; simpl;
    [apply gifts_grow_refl|].
  destruct (Str.truthy _); simpl; [|apply gifts_grow_refl].
  destruct (Str.mem _ _) eqn:Hm; simpl; [apply gifts_grow_refl|].
  destruct (negb _); [|apply gifts_grow_refl].
  apply gifts_grow_append; [done|]. by exists title.
Qed.

Lemma heading_step_grow g heading : gifts_grow g (heading_step g heading).
Proof.
  unfold heading_step.
  destruct (find "span" _ _); [|apply gifts_grow_refl].
  destruct (assoc _ _) as [cat|]; [|apply gifts_grow_refl].
  destruct (Str.truthy cat); [|apply gifts_grow_refl].
  apply walk_siblings_grow. intros g' x.
  apply fold_left_grow, category_link_step_grow.
Qed.

Lemma infobox_gifts_grow soup : gifts_grow empty_gifts (infobox_gifts soup).
Proof.
  unfold infobox_gifts.
  destruct (find "table" _ soup); [|apply gifts_grow_refl].
  apply fold_left_grow, loved_row_step_grow.
Qed.

Lemma parse_gift_preferences_grow soup :
  gifts_grow (infobox_gifts soup) (parse_gift_preferences soup).
Proof.
  unfold parse_gift_preferences.
  destruct (find "div" _ soup); [|apply gifts_grow_refl].
  apply fold_left_grow, heading_step_grow.
Qed.

Lemma parse_gift_preferences_grows soup :
  gifts_grow empty_gifts (parse_gift_preferences soup).
Proof.
  eapply gifts_grow_trans;
    [apply infobox_gifts_grow | apply parse_gift_preferences_grow].
Qed.

Lemma empty_gifts_total cat : empty_gifts !!! cat = [].
Proof.
  unfold empty_gifts. rewrite lookup_total_alt.
  repeat (rewrite lookup_insert; case_decide; [done|]).
  by rewrite lookup_empty.
Qed.

(** What the filter on the file prefix does give: every item of every
    category is the stripped form of a title that, as written in the
    page, does not start with the prefix. *)
Lemma parse_gift_preferences_sources soup cat item :
  In item (parse_gift_preferences soup !!! cat) → stripped_title item.
Proof.
  intros Hin.
  destruct (parse_gift_preferences_grows soup cat) as (_ & _ & _ & Hfrom).
  destruct (Hfrom item Hin) as [Hempty|Hs]; [|done].
  by rewrite empty_gifts_total in Hempty.
Qed.

Lemma empty_gifts_category cat :
  In cat GIFT_CATEGORIES → empty_gifts !! cat = Some [].
Proof.
  unfold GIFT_CATEGORIES, empty_gifts. simpl.
  intros [<-|[<-|[<-|[<-|[<-|[]]]]]]; done.
Qed.

End Gifts.

(** C4. For every document, each of the five categories of the gifts
    [parse_gift_preferences] returns is there and holds no item twice;
    and an item the info panel put in "loved" is in the returned "loved"
    exactly once, whatever the headings list. *)
Theorem parse_gift_preferences_no_duplicates (soup : node) :
  Forall (λ cat, ∃ l, parse_gift_preferences soup !! cat = Some l ∧ NoDup l)
    GIFT_CATEGORIES
  ∧ (∀ item, In item (infobox_gifts soup !!! "loved") →
       count_occ String.string_dec (parse_gift_preferences soup !!! "loved") item
       = 1).
Proof.
  pose proof (gifts_grow_trans _ _ _ (infobox_gifts_grow soup)
                (parse_gift_preferences_grow soup)) as Hgrow.
  split.
  - apply List.Forall_forall. intros cat Hcat.
    destruct (Hgrow cat) as (Hkey & _ & Hnd & _).
    apply empty_gifts_category in Hcat.
    destruct Hkey as [l Hl]; [by rewrite Hcat|].
    exists l. split; [done|].
    rewrite lookup_total_alt, Hcat in Hnd.
    rewrite lookup_total_alt, Hl in Hnd. apply Hnd. constructor.
  - intros item Hitem.
    destruct (Hgrow "loved") as (_ & _ & Hnd & _).
    destruct (parse_gift_preferences_grow soup "loved") as (_ & Hin & _).
    apply NoDup_count_occ'; [|by apply Hin].
    apply NoDup_ListNoDup, Hnd.
    rewrite lookup_total_alt, empty_gifts_category; [constructor|].
    unfold GIFT_CATEGORIES. simpl. auto.
Qed.

(** ** Birthday patterns *)

Section Patterns.

Context {A : Type}.
Implicit Types (k : string → Re.captures → option A).

Lemma append_cons c (s t : string) : String c s +:+ t = String c (s +:+ t).
Proof. done. Qed.

Lemma append_empty_l (s : string) : "" +:+ s = s.
Proof. done. Qed.

Lemma append_empty_r (s : string) : s +:+ "" = s.
Proof. induction s as [|c s IH]; [done|]. by rewrite append_cons, IH. Qed.

Lemma length_append (s t : string) :
  String.length (s +:+ t) = String.length s + String.length t.
Proof. induction s as [|c s IH]; [done|]. rewrite append_cons. simpl. lia. Qed.

Lemma take_append (s t : string) : Re.take (String.length s) (s +:+ t) = s.
Proof.
  induction s as [|c s IH]; [by destruct t|].
  rewrite append_cons. simpl. by rewrite IH.
Qed.

Lemma consumed_append (s t : string) : Re.consumed (s +:+ t) t = s.
Proof.
  unfold Re.consumed. rewrite length_append.
  replace (_ + _ - _) with (String.length s) by lia. apply take_append.
Qed.

Lemma strip_prefix_append (w rest : string) :
  Re.strip_prefix w (w +:+ rest) = Some rest.
Proof.
  induction w as [|c w IH]; [done|].
  rewrite append_cons. simpl. by rewrite Ascii.eqb_refl.
Qed.

Lemma strip_prefix_Some (w s rest : string) :
  Re.strip_prefix w s = Some rest → s = w +:+ rest.
Proof.
  revert s. induction w as [|c w IH]; intros s; simpl.
  - by intros [= ->].
  - destruct s as [|b s]; [done|].
    destruct (Ascii.eqb_spec c b) as [->|]; [|done].
    intros H. rewrite append_cons. f_equal. by apply IH.
Qed.

(** The greedy run stops at the end of [pre] when the rest of the
    pattern matches there. *)
Lemma star_longest {B} cls (pre rest : string) (f : string → option B) x :
  all_in cls pre = true → stops cls rest = true →
  f rest = Some x →
  Re.star cls (pre +:+ rest) f = Some x.
Proof.
  intros Hpre Hrest Hf. induction pre as [|c pre IH].
  - rewrite append_empty_l. destruct rest as [|c rest]; [done|].
    simpl in *. by destruct (cls c).
  - rewrite append_cons. simpl in *.
    apply andb_prop in Hpre as [-> Hpre]. by rewrite IH.
Qed.

(** Wherever the run stops, it has read characters of the class only. *)
Lemma star_inv {B} cls (s : string) (f : string → option B) x :
  Re.star cls s f = Some x →
  ∃ pre rest, s = pre +:+ rest ∧ all_in cls pre = true ∧ f rest = Some x.
Proof.
  induction s as [|c s IH]; simpl.
  - intros Hf. by exists "", "".
  - destruct (cls c) eqn:Hc.
    + destruct (Re.star cls s f) as [y|] eqn:Hs.
      * intros [= ->]. destruct IH as (pre & rest & -> & Hpre & Hf); [done|].
        exists (String c pre), rest. simpl. by rewrite Hc.
      * intros Hf. by exists "", (String c s).
    + intros Hf. by exists "", (String c s).
Qed.

Lemma run_plus_group i cls (D rest : string) caps k x :
  all_in cls D = true → D ≠ "" → stops cls rest = true →
  k rest ((i, D) :: caps) = Some x →
  Re.run (Re.Group i (Re.Plus cls)) (D +:+ rest) caps k = Some x.
Proof.
  intros HD Hne Hrest Hk. destruct D as [|c D]; [done|].
  simpl in HD. apply andb_prop in HD as [Hc HD].
  cbn [Re.run]. rewrite append_cons, Hc.
  apply star_longest; [done..|].
  by rewrite <- append_cons, consumed_append.
Qed.

Lemma run_plus_group_inv i cls (s : string) caps k x :
  Re.run (Re.Group i (Re.Plus cls)) s caps k = Some x →
  ∃ D rest, s = D +:+ rest ∧ all_in cls D = true ∧ D ≠ ""
            ∧ k rest ((i, D) :: caps) = Some x.
Proof.
  cbn [Re.run]. destruct s as [|c s]; [done|].
  destruct (cls c) eqn:Hc; [|done]. intros H.
  apply star_inv in H as (pre & rest & -> & Hpre & Hk).
  exists (String c pre), rest. rewrite append_cons. simpl.
  rewrite Hc, Hpre. split; [done|]. split; [done|]. split; [done|].
  by rewrite <- append_cons, consumed_append in Hk.
Qed.

Lemma run_seq r1 r2 (s : string) caps k :
  Re.run (Re.Seq r1 r2) s caps k =
  Re.run r1 s caps (λ s' caps', Re.run r2 s' caps' k).
Proof. done. Qed.

Lemma run_star cls (ws rest : string) caps k x :
  all_in cls ws = true → stops cls rest = true →
  k rest caps = Some x →
  Re.run (Re.Star cls) (ws +:+ rest) caps k = Some x.
Proof. intros. cbn [Re.run]. by apply star_longest. Qed.

Lemma run_star_inv cls (s : string) caps k x :
  Re.run (Re.Star cls) s caps k = Some x →
  ∃ rest, k rest caps = Some x.
Proof.
  cbn [Re.run]. intros H. apply star_inv in H as (_ & rest & _ & _ & Hk).
  eauto.
Qed.

(** A season word at the start of the text is the one the group takes;
    the other alternatives do not match there. *)
Lemma run_season_word i (S rest : string) caps k :
  In S SEASONS →
  Re.run (Re.Group i season_word) (S +:+ rest) caps k =
  k rest ((i, S) :: caps).
Proof.
  intros [<-|[<-|[<-|[<-|[]]]]]; cbn [Re.run season_word];
    rewrite ?consumed_append;
    repeat match goal with
      | |- context [Re.strip_prefix ?w (?w +:+ ?r)] =>
          rewrite (strip_prefix_append w r)
      | |- context [Re.strip_prefix ?w ?t] =>
          change (Re.strip_prefix w t) with (@None string)
      end;
    rewrite ?consumed_append; by destruct (k rest _).
Qed.

Lemma run_season_word_inv i (s : string) caps k x :
  Re.run (Re.Group i season_word) s caps k = Some x →
  ∃ S rest, In S SEASONS ∧ s = S +:+ rest
            ∧ k rest ((i, S) :: caps) = Some x.
Proof.
  unfold SEASONS.
  intros H; cbn [Re.run season_word] in H;
    repeat match type of H with
      | context [Re.strip_prefix ?w s] =>
          let E := fresh "E" in
          destruct (Re.strip_prefix w s) as [?|] eqn:E;
          [apply strip_prefix_Some in E; subst s;
           rewrite consumed_append in H|]
      | context [match ?o with Some _ => _ | None => _ end] =>
          let E := fresh "E" in destruct o eqn:E
      end;
    simplify_eq; simpl; eauto 10.
Qed.

End Patterns.

Section Birthday.

Lemma digit_not_space c : Str.isdigit c = true → Str.isspace c = false.
Proof. by destruct c as [[] [] [] [] [] [] [] []]. Qed.

Lemma space_not_digit c : Str.isspace c = true → Str.isdigit c = false.
Proof. by destruct c as [[] [] [] [] [] [] [] []]. Qed.

Lemma season_stops S (rest : string) :
  In S SEASONS →
  stops Str.isspace (S +:+ rest) = true
  ∧ stops Str.isdigit (S +:+ rest) = true.
Proof. by intros [<-|[<-|[<-|[<-|[]]]]]. Qed.

Lemma digits_stop_space D :
  all_digits D = true → D ≠ "" → stops Str.isspace D = true.
Proof.
  destruct D as [|c D]; [done|]. simpl.
  intros [Hc _]%andb_prop _. by rewrite digit_not_space.
Qed.


Lemma run_plus_group_end i cls D caps :
  all_in cls D = true → D ≠ "" →
  Re.run (Re.Group i (Re.Plus cls)) D caps (λ _ m, Some m) =
  Some ((i, D) :: caps).
Proof.
  intros HD Hne. rewrite <- (append_empty_r D) at 1.
  by apply run_plus_group.
Qed.


Lemma match_season_day S ws D :
  In S SEASONS → all_in Str.isspace ws = true →
  all_digits D = true → D ≠ "" →
  Re.match_ season_day_pattern (S +:+ ws +:+ D) = Some [(2, D); (1, S)].
Proof.
  intros HS Hws HD Hne. unfold Re.match_, season_day_pattern.
  rewrite run_seq, run_season_word, run_seq by done.
  apply run_star; [done | by apply digits_stop_space |].
  by apply run_plus_group_end.
Qed.

Lemma match_season_day_digit c (s : string) :
  Str.isdigit c = true →
  Re.match_ season_day_pattern (String c s) = None.
Proof.
  intros Hc. unfold Re.match_, season_day_pattern, season_word.
  cbn [Re.run Re.strip_prefix].
  by destruct c as [[] [] [] [] [] [] [] []].
Qed.


(** Season first: the first pattern matches. *)
Lemma birthday_of_text_season_day S ws D :
  In S SEASONS → all_in Str.isspace ws = true →
  all_digits D = true → D ≠ "" →
  birthday_of_text (S +:+ ws +:+ D) = birthday_from S D.
Proof.
  intros HS Hws HD Hne. unfold birthday_of_text.
  by rewrite match_season_day.
Qed.


Lemma digit_value_nonneg c : Str.isdigit c = true → (0 ≤ digit_value c)%Z.
Proof.
  unfold Str.isdigit, digit_value. intros [H _]%andb_prop.
  apply N.leb_le in H. lia.
Qed.

Lemma int_acc_nonneg D :
  all_digits D = true → ∀ acc, (0 ≤ acc)%Z →
  (0 ≤ fold_left (λ acc c, 10 * acc + digit_value c)%Z
         (String.list_ascii_of_string D) acc)%Z.
Proof.
  induction D as [|c D IH]; intros HD acc Hacc; simpl in *; [done|].
  apply andb_prop in HD as [Hc HD]. apply IH; [done|].
  pose proof (digit_value_nonneg c Hc). lia.
Qed.

Lemma int_nonneg D : all_digits D = true → (0 ≤ int_value D)%Z.
Proof. intros HD. by apply int_acc_nonneg. Qed.

(** [int] returns the number the digits write, and only for a string
    within the bound. *)
Lemma int_Returns D d :
  int D = Returns d ↔
  String.length D ≤ MAX_STR_DIGITS ∧ d = int_value D.
Proof.
  unfold int. destruct (Nat.leb_spec (String.length D) MAX_STR_DIGITS).
  - split; [by intros [= <-]|by intros [_ ->]].
  - split; [done|]. intros [Hle _]. lia.
Qed.

Lemma birthday_from_Returns S D b :
  birthday_from S D = Returns b → b = Some (Birthday S (int_value D)).
Proof.
  unfold birthday_from. destruct (int D) as [d|e] eqn:Hd; [|done].
  apply int_Returns in Hd as [_ ->]. by intros [= <-].
Qed.

Lemma birthday_from_bound S D :
  String.length D ≤ MAX_STR_DIGITS →
  birthday_from S D = Returns (Some (Birthday S (int_value D))).
Proof.
  intros Hle. unfold birthday_from.
  by rewrite (proj2 (int_Returns D (int_value D)) (conj Hle eq_refl)).
Qed.

Lemma match_season_day_inv text m :
  Re.match_ season_day_pattern text = Some m →
  ∃ S D, In S SEASONS ∧ all_digits D = true ∧ D ≠ ""
         ∧ m = [(2, D); (1, S)].
Proof.
  unfold Re.match_, season_day_pattern. rewrite run_seq. intros H.
  apply run_season_word_inv in H as (S & rest & HS & -> & H).
  rewrite run_seq in H. apply run_star_inv in H as (rest' & H).
  apply run_plus_group_inv in H as (D & rest'' & -> & HD & Hne & [= <-]).
  by exists S, D.
Qed.

Lemma match_day_season_inv text m :
  Re.match_ day_season_pattern text = Some m →
  ∃ S D, In S SEASONS ∧ all_digits D = true ∧ D ≠ ""
         ∧ m = [(2, S); (1, D)].
Proof.
  unfold Re.match_, day_season_pattern. rewrite run_seq. intros H.
  apply run_plus_group_inv in H as (D & rest & -> & HD & Hne & H).
  rewrite run_seq in H. apply run_star_inv in H as (rest' & H).
  apply run_season_word_inv in H as (S & rest'' & HS & -> & [= <-]).
  by exists S, D.
Qed.

Lemma birthday_of_text_inv text b :
  birthday_of_text text = Returns (Some b) →
  In (season b) SEASONS
  ∧ ∃ D, all_digits D = true ∧ D ≠ "" ∧ day b = int_value D
         ∧ int D = Returns (day b).
Proof.
  unfold birthday_of_text.
  destruct (Re.match_ season_day_pattern text) as [m|] eqn:H1.
  - apply match_season_day_inv in H1 as (S & D & HS & HD & Hne & ->).
    simpl. destruct (int D) as [d|e] eqn:Hd; [|done].
    intros [= <-]. simpl. split; [done|]. exists D.
    apply int_Returns in Hd as Hd'. destruct Hd' as [_ ->]. auto.
  - destruct (Re.match_ day_season_pattern text) as [m|] eqn:H2; [|done].
    apply match_day_season_inv in H2 as (S & D & HS & HD & Hne & ->).
    simpl. destruct (int D) as [d|e] eqn:Hd; [|done].
    intros [= <-]. simpl. split; [done|]. exists D.
    apply int_Returns in Hd as Hd'. destruct Hd' as [_ ->]. auto.
Qed.

Lemma first_return_Some {X Y} (body : X → outcome (option Y)) l r :
  first_return body l = Returns (Some r) →
  ∃ x, In x l ∧ body x = Returns (Some r).
Proof.
  induction l as [|x l IH]; [done|]. simpl.
  destruct (body x) as [[y|]|e] eqn:Hx.
  - intros [= ->]. eauto.
  - intros H. destruct (IH H) as (x' & ? & ?). eauto.
  - done.
Qed.


Lemma parse_birthday_inv soup b :
  parse_birthday soup = Returns (Some b) →
  ∃ text, birthday_of_text text = Returns (Some b).
Proof.
  unfold parse_birthday. destruct (find "table" _ soup); [|done].
  intros (row & _ & H)%first_return_Some. unfold birthday_of_row in H.
  destruct (birthday_text_of_row row) as [text|]; [eauto|done].
Qed.

End Birthday.


(** C7, as the code has it. Whenever [parse_birthday] returns a birthday,
    its season is one of Spring, Summer, Fall, Winter and its day is the
    value of a non-empty string of digits, hence not negative; it is zero
    when the digits are all zero. *)
Theorem parse_birthday_present (soup : node) (b : birthday) :
  parse_birthday soup = Returns (Some b) →
  In (season b) SEASONS
  ∧ (∃ D, all_digits D = true ∧ D ≠ "" ∧ day b = int_value D
          ∧ int D = Returns (day b))
  ∧ (0 ≤ day b)%Z.
Proof.
  intros (text & Ht)%parse_birthday_inv.
  apply birthday_of_text_inv in Ht as (HS & D & HD & Hne & Hday & Hint).
  split; [done|]. split; [eauto|]. rewrite Hday. by apply int_nonneg.
Qed.

(** ** Portrait image *)

Section Image.

Lemma startswith_spec s p :
  Str.startswith s p = true ↔ ∃ rest, s = p +:+ rest.
Proof.
  unfold Str.startswith. revert s.
  induction p as [|a p IH]; intros s; simpl.
  - destruct s; split; eauto.
  - destruct s as [|b s]; [split; [done|by intros [? ?]]|].
    change (String.prefix (String a p) (String b s))
      with (if ascii_dec a b then String.prefix p s else false).
    destruct (ascii_dec a b) as [->|Hne].
    + rewrite IH. split; intros [rest Hr]; exists rest.
      * by rewrite append_cons, Hr.
      * rewrite append_cons in Hr. by injection Hr.
    + split; [done|]. intros [rest Hr]. rewrite append_cons in Hr.
      injection Hr as Hab _. by destruct Hne.
Qed.

Lemma startswith_slashes s :
  Str.startswith s "/" = false → Str.startswith s "//" = false.
Proof.
  intros H1. destruct (Str.startswith s "//") eqn:H2; [|done].
  apply startswith_spec in H2 as [rest ->]. by vm_compute in H1.
Qed.

Lemma parse_image_url_src soup infobox img :
  find "table" [("id", "infoboxtable")] soup = Some infobox →
  find "img" [] infobox = Some img →
  parse_image_url soup =
  match get "src" img with
  | Some src => if Str.truthy src then Some (absolute_url src) else None
  | None => None
  end.
Proof. intros Hbox Himg. unfold parse_image_url. by rewrite Hbox, Himg. Qed.

End Image.

(** C6. When the first image of the info panel has the non-empty address
    [src]: an address that starts with "//" is returned with "https:" in
    front; otherwise one that starts with "/" is returned with the site
    origin in front; every other address, so every one that is already
    absolute, is returned as it is. *)
Theorem parse_image_url_normalizes (soup infobox img : node) (src : string) :
  find "table" [("id", "infoboxtable")] soup = Some infobox →
  find "img" [] infobox = Some img →
  get "src" img = Some src → src ≠ "" →
  (Str.startswith src "//" = true →
     parse_image_url soup = Some ("https:" +:+ src))
  ∧ (Str.startswith src "//" = false → Str.startswith src "/" = true →
       parse_image_url soup = Some (BASE_URL +:+ src))
  ∧ (Str.startswith src "/" = false → parse_image_url soup = Some src).
Proof.
  intros Hbox Himg Hsrc Hne.
  rewrite (parse_image_url_src _ _ _ Hbox Himg), Hsrc.
  assert (Str.truthy src = true) as -> by by destruct src.
  unfold absolute_url. split; [|split].
  - by intros ->.
  - by intros -> ->.
  - intros Hslash. by rewrite (startswith_slashes _ Hslash), Hslash.
Qed.

(** C10. Only the first image of the info panel is looked at: when it has
    no address, or an empty one, [parse_image_url] returns nothing,
    whatever the images after it carry. *)
Theorem parse_image_url_first_image_only (soup infobox img : node) :
  find "table" [("id", "infoboxtable")] soup = Some infobox →
  find "img" [] infobox = Some img →
  get "src" img = None ∨ get "src" img = Some "" →
  parse_image_url soup = None.
Proof.
  intros Hbox Himg Hsrc.
  rewrite (parse_image_url_src _ _ _ Hbox Himg).
  by destruct Hsrc as [-> | ->].
Qed.

(** ** The run *)

Section RunTrace.

Variable fetch : string → string + node.
Variable now : string.

Lemma make_request_no_save url : no_save (snd (make_request fetch url)).
Proof.
  unfold make_request, no_save. destruct (fetch url); simpl;
    repeat constructor.
Qed.

Lemma scrape_villager_details_no_save name url :
  no_save (snd (scrape_villager_details fetch name url)).
Proof.
  unfold scrape_villager_details.
  pose proof (make_request_no_save url) as H.
  destruct (make_request fetch url) as [[soup|] tr]; cbn [snd] in *;
    [destruct (parse_birthday soup)|]; by constructor.
Qed.

Lemma scrape_loop_no_save total items : ∀ vs tr,
  no_save tr → no_save (snd (scrape_loop fetch total items vs tr)).
Proof.
  induction items as [|[i [name url]] items IH]; intros vs tr Htr; [done|].
  cbn [scrape_loop].
  pose proof (scrape_villager_details_no_save name url) as H.
  destruct (scrape_villager_details fetch name url) as [[[details|]|e] tr'];
    cbn [snd] in *; try apply IH; unfold no_save in *;
    rewrite !Forall_app; repeat split; try done; by repeat constructor.
Qed.

Lemma scrape_all_villagers_no_save :
  no_save (snd (scrape_all_villagers fetch now)).
Proof.
  unfold scrape_all_villagers.
  destruct get_villager_list as [vl tr0] eqn:Hl.
  assert (no_save tr0) as Htr0.
  { injection Hl as _ <-. by repeat constructor. }
  clear Hl. destruct vl as [|v vl].
  - cbn [snd]. unfold no_save. rewrite !Forall_app.
    by repeat constructor.
  - match goal with
    | |- context [scrape_loop fetch ?n ?l ?vs ?tr] =>
        pose proof (scrape_loop_no_save n l vs tr) as H;
        destruct (scrape_loop fetch n l vs tr) as [[vs'|e] tr2]
    end; cbn [snd] in *; apply H; unfold no_save; rewrite !Forall_app;
      by repeat constructor.
Qed.

Lemma main_trace :
  main fetch now =
  match fst (scrape_all_villagers fetch now) with
  | Returns data =>
      (Returns tt, snd (scrape_all_villagers fetch now) ++ report data)
  | Raises e => (Raises e, snd (scrape_all_villagers fetch now))
  end.
Proof. unfold main. by destruct (scrape_all_villagers fetch now). Qed.

End RunTrace.

(** C8. When the collection the run has built holds no villager, [main]
    never saves: no event of the run is a save, and the run ends with the
    no-data message. *)
Theorem main_no_data (fetch : string → string + node) (now : string) :
  villagers <$> returned (fst (scrape_all_villagers fetch now)) = Some [] →
  fst (main fetch now) = Returns tt
  ∧ Forall (λ e, is_save e = false) (snd (main fetch now))
  ∧ last (snd (main fetch now)) = Some (Print no_data_message).
Proof.
  intros Hv. rewrite main_trace.
  pose proof (scrape_all_villagers_no_save fetch now) as Htr.
  destruct (scrape_all_villagers fetch now) as [data tr].
  cbn [fst snd] in *.
  destruct data as [[[md vs idx]|]|e]; [|done..].
  injection Hv as ->. cbn [report fst snd]. split; [done|]. split.
  - apply Forall_app. split; [done|]. by repeat constructor.
  - by rewrite last_snoc.
Qed.

(** C5, where the code departs from it. The test on the file prefix reads
    the title as written, the item kept is the stripped title: a title
    written with a space before "File:" passes the test and is kept as an
    item that starts with "File:", from the info panel and from a heading
    section alike. *)
Theorem spaced_file_title_is_collected :
  Str.startswith Pages.spaced_file_title "File:" = false
  ∧ parse_gift_preferences Pages.loved_thumbnail_page !! "loved"
    = Some ["File:Pizza.png"]
  ∧ parse_gift_preferences Pages.liked_thumbnail_page !! "liked"
    = Some ["File:Pizza.png"]
  ∧ Str.startswith "File:Pizza.png" "File:" = true.
Proof. by vm_compute. Qed.

(** C7 as stated fails: the birthday text "Spring 0" gives day 0. *)
Lemma parse_birthday_day_zero :
  ¬ (∀ soup b, parse_birthday soup = Returns (Some b) →
       In (season b) SEASONS ∧ (0 < day b)%Z).
Proof.
  intros H.
  destruct (H (Pages.birthday_page "Spring 0") (Birthday "Spring" 0))
    as [_ Hday]; [reflexivity|].
  simpl in Hday. lia.
Qed.

(** ** The theorems at concrete pages *)

Lemma parse_season_schedules_variants_witness :
  parse_season_schedules Pages.spring_block =
  List.filter has_entries
    (map own_variant_of (season_tables Pages.spring_block)).
Proof.
  apply (proj2 (proj2 (proj2
           (parse_season_schedules_variants Pages.spring_block)))).
  vm_compute. repeat constructor.
Defined.


Lemma build_birthday_index_entries_witness :
  index_lookup (build_birthday_index Pages.shared_birthday) "Fall" (str 13)
  = Some "Sam".
Proof.
  apply (proj1 (proj2 (build_birthday_index_entries Pages.shared_birthday))
           "Fall" 13%Z
           [("Abigail",
             Pages.with_birthday "Abigail" (Some (Birthday "Fall" 13)));
            ("Krobus", Pages.with_birthday "Krobus" None)]
           "Sam" (Pages.with_birthday "Sam" (Some (Birthday "Fall" 13))) []).
  - right. right. left. reflexivity.
  - reflexivity.
  - reflexivity.
  - constructor.
Defined.

Lemma parse_gift_preferences_no_duplicates_witness :
  count_occ String.string_dec
    (parse_gift_preferences Pages.pizza_page !!! "loved") "Pizza" = 1.
Proof.
  apply (proj2 (parse_gift_preferences_no_duplicates Pages.pizza_page)).
  vm_compute. left. reflexivity.
Defined.

Lemma parse_image_url_normalizes_witness :
  parse_image_url Pages.portrait_page
  = Some (BASE_URL +:+ "/images/x.png").
Proof.
  apply (parse_image_url_normalizes Pages.portrait_page Pages.portrait_box
           Pages.portrait "/images/x.png");
    try reflexivity.
  discriminate.
Defined.

Lemma parse_birthday_present_witness :
  In "Summer" SEASONS
  ∧ (∃ D, all_digits D = true ∧ D ≠ "" ∧ 13%Z = int_value D
          ∧ int D = Returns 13%Z)
  ∧ (0 ≤ 13)%Z.
Proof.
  apply (parse_birthday_present (Pages.birthday_page "Summer 13")
           (Birthday "Summer" 13)).
  reflexivity.
Defined.

Lemma main_no_data_witness :
  fst (main Pages.unreachable "2026-01-01") = Returns tt
  ∧ Forall (λ e, is_save e = false)
      (snd (main Pages.unreachable "2026-01-01"))
  ∧ last (snd (main Pages.unreachable "2026-01-01"))
    = Some (Print no_data_message).
Proof.
  apply (main_no_data Pages.unreachable "2026-01-01").
  vm_compute. reflexivity.
Defined.

Lemma parse_schedule_last_block_wins_witness :
  parse_schedule Pages.two_springs_page !! "Spring"
  = Some (parse_season_schedules Pages.spring_block_again).
Proof.
  apply (parse_schedule_last_block_wins Pages.two_springs_page "Spring"
           Pages.spring_block_again [("Spring", Pages.spring_block)] []).
  - reflexivity.
  - constructor.
Defined.

Lemma parse_image_url_first_image_only_witness :
  parse_image_url Pages.two_images_page = None.
Proof.
  apply (parse_image_url_first_image_only Pages.two_images_page
           Pages.two_images_box Pages.bare_image).
  - reflexivity.
  - reflexivity.
  - left. reflexivity.
Defined.


(** * More of the program *)

(** ** Birthday text *)

Section BirthdayText.

Lemma stops_append cls (D rest : string) :
  D ≠ "" → stops cls (D +:+ rest) = stops cls D.
Proof. by destruct D. Qed.

Lemma append_assoc (a b c : string) : (a +:+ b) +:+ c = a +:+ b +:+ c.
Proof.
  induction a as [|x a IH]; [done|]. by rewrite !append_cons, IH.
Qed.

Lemma match_season_day_rest S ws D rest :
  In S SEASONS → all_in Str.isspace ws = true →
  all_digits D = true → D ≠ "" → stops Str.isdigit rest = true →
  Re.match_ season_day_pattern (S +:+ ws +:+ D +:+ rest)
  = Some [(2, D); (1, S)].
Proof.
  intros HS Hws HD Hne Hrest. unfold Re.match_, season_day_pattern.
  rewrite run_seq, run_season_word, run_seq by done.
  apply run_star; [done| |].
  - rewrite stops_append by done. by apply digits_stop_space.
  - by apply run_plus_group.
Qed.

Lemma match_day_season_rest S ws D rest :
  In S SEASONS → all_in Str.isspace ws = true →
  all_digits D = true → D ≠ "" →
  Re.match_ day_season_pattern (D +:+ ws +:+ S +:+ rest)
  = Some [(2, S); (1, D)].
Proof.
  intros HS Hws HD Hne. unfold Re.match_, day_season_pattern.
  rewrite run_seq. apply run_plus_group; [done|done| |].
  - destruct ws as [|c ws].
    + rewrite append_empty_l. by apply season_stops.
    + simpl in *. apply andb_prop in Hws as [Hc _].
      by rewrite space_not_digit.
  - rewrite run_seq. apply run_star; [done|by apply season_stops|].
    by rewrite run_season_word.
Qed.

Lemma run_star_split {B} cls (s : string) caps
    (k : string → Re.captures → option B) x :
  Re.run (Re.Star cls) s caps k = Some x →
  ∃ ws rest, s = ws +:+ rest ∧ all_in cls ws = true ∧ k rest caps = Some x.
Proof. cbn [Re.run]. intros H. by apply star_inv in H. Qed.

Lemma match_season_day_form text m :
  Re.match_ season_day_pattern text = Some m →
  ∃ S ws D rest, In S SEASONS ∧ all_in Str.isspace ws = true
    ∧ all_digits D = true ∧ D ≠ ""
    ∧ text = S +:+ ws +:+ D +:+ rest ∧ m = [(2, D); (1, S)].
Proof.
  unfold Re.match_, season_day_pattern. rewrite run_seq. intros H.
  apply run_season_word_inv in H as (S & rest & HS & -> & H).
  rewrite run_seq in H.
  apply run_star_split in H as (ws & rest' & -> & Hws & H).
  apply run_plus_group_inv in H as (D & rest'' & -> & HD & Hne & [= <-]).
  by exists S, ws, D, rest''.
Qed.

Lemma match_day_season_form text m :
  Re.match_ day_season_pattern text = Some m →
  ∃ S ws D rest, In S SEASONS ∧ all_in Str.isspace ws = true
    ∧ all_digits D = true ∧ D ≠ ""
    ∧ text = D +:+ ws +:+ S +:+ rest ∧ m = [(2, S); (1, D)].
Proof.
  unfold Re.match_, day_season_pattern. rewrite run_seq. intros H.
  apply run_plus_group_inv in H as (D & rest & -> & HD & Hne & H).
  rewrite run_seq in H.
  apply run_star_split in H as (ws & rest' & -> & Hws & H).
  apply run_season_word_inv in H as (S & rest'' & HS & -> & [= <-]).
  by exists S, ws, D, rest''.
Qed.

End BirthdayText.

(** X1. The birthday patterns read the start of the text only: a season
    word, any run of white space and a non-empty run of digits give what
    reading that season and those digits gives, whatever follows them (as
    long as it does not go on with a digit); so do the digits, white space
    and the season word in the other order, whatever follows.  That is
    the season with the number the digits write for digits within the
    bound of [int], and its [ValueError] beyond. *)
Theorem birthday_of_text_ignores_rest (S ws D rest : string) :
  In S SEASONS → all_in Str.isspace ws = true →
  all_digits D = true → D ≠ "" →
  (stops Str.isdigit rest = true →
   birthday_of_text (S +:+ ws +:+ D +:+ rest) = birthday_from S D)
  ∧ birthday_of_text (D +:+ ws +:+ S +:+ rest) = birthday_from S D
  ∧ (String.length D ≤ MAX_STR_DIGITS →
     birthday_from S D = Returns (Some (Birthday S (int_value D))))
  ∧ (MAX_STR_DIGITS < String.length D →
     birthday_from S D = Raises ValueError).
Proof.
  intros HS Hws HD Hne. unfold birthday_of_text. split; [|split; [|split]].
  - intros Hrest. by rewrite match_season_day_rest.
  - rewrite match_day_season_rest by done.
    destruct D as [|c D]; [done|]. rewrite append_cons.
    rewrite match_season_day_digit; [done|].
    simpl in HD. by apply andb_prop in HD as [-> _].
  - apply birthday_from_bound.
  - intros Hlong. unfold birthday_from, int.
    destruct (Nat.leb_spec (String.length D) MAX_STR_DIGITS); [lia|done].
Qed.

(** X2. The birthday patterns accept nothing else: a text that gives a
    birthday begins with a season word, white space and digits, or with
    digits, white space and a season word, and the birthday is that season
    with the value of those digits, which [int] has returned. *)
Theorem birthday_of_text_form (text : string) (b : birthday) :
  birthday_of_text text = Returns (Some b) →
  ∃ S ws D rest,
    In S SEASONS ∧ all_in Str.isspace ws = true
    ∧ all_digits D = true ∧ D ≠ ""
    ∧ b = Birthday S (int_value D)
    ∧ int D = Returns (int_value D)
    ∧ (text = S +:+ ws +:+ D +:+ rest ∨ text = D +:+ ws +:+ S +:+ rest).
Proof.
  unfold birthday_of_text.
  destruct (Re.match_ season_day_pattern text) as [m|] eqn:H1.
  - apply match_season_day_form in H1
      as (S & ws & D & rest & HS & Hws & HD & Hne & -> & ->).
    simpl. destruct (int D) as [d|e] eqn:Hd; [|done].
    apply int_Returns in Hd as Hd'. destruct Hd' as [_ ->].
    intros [= <-]. exists S, ws, D, rest. auto 10.
  - destruct (Re.match_ day_season_pattern text) as [m|] eqn:H2; [|done].
    apply match_day_season_form in H2
      as (S & ws & D & rest & HS & Hws & HD & Hne & -> & ->).
    simpl. destruct (int D) as [d|e] eqn:Hd; [|done].
    apply int_Returns in Hd as Hd'. destruct Hd' as [_ ->].
    intros [= <-]. exists S, ws, D, rest. auto 10.
Qed.

(** ** Portrait image, again *)

Section ImageMore.

Lemma absolute_url_shape src :
  src ≠ "" →
  absolute_url src ≠ "" ∧ Str.startswith (absolute_url src) "/" = false.
Proof.
  intros Hne. unfold absolute_url.
  destruct (Str.startswith src "//"); [done|].
  destruct (Str.startswith src "/") eqn:H1; [done|]. done.
Qed.

Lemma parse_image_url_Some soup u :
  parse_image_url soup = Some u →
  ∃ src, src ≠ "" ∧ u = absolute_url src.
Proof.
  unfold parse_image_url.
  destruct (find "table" _ soup) as [infobox|]; [|done].
  destruct (find "img" _ infobox) as [img|]; [|done].
  destruct (get "src" img) as [src|]; [|done].
  destruct src as [|c src]; [done|]. simpl. intros [= <-].
  by exists (String c src).
Qed.

End ImageMore.

(** X3. An address [parse_image_url] returns is never empty and never
    starts with "/": what the page gave relative to the site root or to
    the protocol comes back with a scheme in front. *)
Theorem parse_image_url_no_leading_slash (soup : node) (u : string) :
  parse_image_url soup = Some u →
  u ≠ "" ∧ Str.startswith u "/" = false.
Proof.
  intros (src & Hne & ->)%parse_image_url_Some.
  by apply absolute_url_shape.
Qed.

(** X4. Normalising is stable: an address [parse_image_url] has returned,
    met again as the address of the first image of an info panel, is
    returned as it is. *)
Theorem parse_image_url_stable (soup soup' infobox img : node) (u : string) :
  parse_image_url soup = Some u →
  find "table" [("id", "infoboxtable")] soup' = Some infobox →
  find "img" [] infobox = Some img →
  get "src" img = Some u →
  parse_image_url soup' = Some u.
Proof.
  intros (src & Hne & ->)%parse_image_url_Some Hbox Himg Hsrc.
  destruct (absolute_url_shape src Hne) as [Hne' Hslash].
  rewrite (parse_image_url_src _ _ _ Hbox Himg), Hsrc.
  assert (Str.truthy (absolute_url src) = true) as ->
    by by destruct (absolute_url src).
  unfold absolute_url at 1.
  by rewrite (startswith_slashes _ Hslash), Hslash.
Qed.

(** ** Gift preferences, again *)

Section GiftsMore.

Implicit Types g : gmap string (list string).

Lemma appended_trans Q g1 g2 g3 :
  appended Q g1 g2 → appended Q g2 g3 → appended Q g1 g3.
Proof.
  intros H12 H23. induction H23 as [|g2 g3 cat item _ IH HQ]; [done|].
  apply appended_more; auto.
Qed.

Lemma appended_one Q g cat item :
  Q cat item → appended Q g (append_gift cat item g).
Proof. intros HQ. apply appended_more; [constructor|done]. Qed.

Lemma fold_left_appended {X} Q
    (f : gmap string (list string) → X → gmap string (list string)) l :
  (∀ g x, appended Q g (f g x)) → ∀ g, appended Q g (fold_left f l g).
Proof.
  intros Hf. induction l as [|x l IH]; intros g; simpl; [constructor|].
  eapply appended_trans; [apply Hf|apply IH].
Qed.

Lemma walk_siblings_appended Q stop
    (f : gmap string (list string) → node → gmap string (list string))
    after :
  (∀ g x, appended Q g (f g x)) →
  ∀ g, appended Q g (walk_siblings stop f after g).
Proof.
  intros Hf. induction after as [|n rest IH]; intros g; simpl;
    [constructor|].
  destruct (name n) as [nm|]; [|apply IH].
  destruct (Str.mem nm stop); [constructor|].
  eapply appended_trans; [apply Hf|apply IH].
Qed.

Lemma truthy_nonempty s : Str.truthy s = true → s ≠ "".
Proof. by destruct s. Qed.

Lemma loved_link_step_appended g link :
  appended loved_item g (loved_link_step g link).
Proof.
  unfold loved_link_step.
  destruct (get "title" link) as [title|]; [|constructor].
  destruct (_ && _); [|constructor].
  destruct (Str.truthy (Str.strip title)) eqn:Hitem; simpl; [|constructor].
  destruct (Str.mem _ _); simpl; [constructor|].
  apply appended_one. split; [done|by apply truthy_nonempty].
Qed.

Lemma infobox_gifts_appended soup :
  appended loved_item empty_gifts (infobox_gifts soup).
Proof.
  unfold infobox_gifts. destruct (find "table" _ soup); [|constructor].
  apply fold_left_appended. intros g row. unfold loved_row_step.
  destruct (find "td" _ row); [|constructor].
  destruct (Str.contains _ _); [|constructor].
  destruct (find "td" _ row); [|constructor].
  apply fold_left_appended, loved_link_step_appended.
Qed.

Lemma category_link_step_appended cat g link :
  In cat GIFT_CATEGORIES →
  appended heading_item g (category_link_step cat g link).
Proof.
  intros Hcat. unfold category_link_step.
  destruct (get "title" link) as [title|]; [|constructor].
  destruct (_ && _); [|constructor].
  destruct (Str.truthy (Str.strip title)) eqn:Hitem; simpl; [|constructor].
  destruct (Str.mem _ _); simpl; [constructor|].
  destruct (negb _) eqn:Hmeta; [|constructor].
  apply negb_true_iff in Hmeta.
  apply appended_one. split; [done|]. split; [by apply truthy_nonempty|done].
Qed.

Lemma category_map_values heading_text cat :
  assoc heading_text category_map = Some cat → In cat GIFT_CATEGORIES.
Proof.
  unfold category_map, GIFT_CATEGORIES. cbn [assoc].
  repeat (destruct (String.eqb _ heading_text);
          [intros [= <-]; simpl; auto 10|]).
  done.
Qed.

Lemma heading_step_appended g heading :
  appended heading_item g (heading_step g heading).
Proof.
  unfold heading_step.
  destruct (find "span" _ _); [|constructor].
  destruct (assoc _ _) as [cat|] eqn:Hcat; [|constructor].
  apply category_map_values in Hcat.
  destruct (Str.truthy cat); [|constructor].
  apply walk_siblings_appended. intros g' sibling.
  apply fold_left_appended. intros g'' link.
  by apply category_link_step_appended.
Qed.

Lemma parse_gift_preferences_appended soup :
  appended heading_item (infobox_gifts soup) (parse_gift_preferences soup).
Proof.
  unfold parse_gift_preferences.
  destruct (find "div" _ soup); [|constructor].
  apply fold_left_appended, heading_step_appended.
Qed.

Lemma append_gift_total cat item g cat' :
  append_gift cat item g !!! cat' =
  if decide (cat = cat') then g !!! cat ++ [item] else g !!! cat'.
Proof.
  unfold append_gift. case_decide as Hc.
  - subst. by rewrite lookup_total_insert_eq.
  - by rewrite lookup_total_insert_ne.
Qed.

Lemma appended_items Q g g' cat item :
  appended Q g g' → In item (g' !!! cat) →
  In item (g !!! cat) ∨ Q cat item.
Proof.
  induction 1 as [|g g' c i _ IH HQ]; [auto|].
  rewrite append_gift_total. case_decide as Hc; [|done]. subst c.
  intros [Hin|[<-|[]]]%in_app_or; [auto|by right].
Qed.

Lemma appended_prefix Q g g' cat :
  appended Q g g' → ∃ more, g' !!! cat = g !!! cat ++ more.
Proof.
  induction 1 as [|g g' c i _ [more IH] HQ]; [by exists []; rewrite app_nil_r|].
  rewrite append_gift_total. case_decide as Hc.
  - subst c. exists (more ++ [i]). by rewrite IH, app_assoc.
  - by exists more.
Qed.

Lemma appended_keys Q g g' cat :
  appended Q g g' → is_Some (g' !! cat) →
  is_Some (g !! cat) ∨ ∃ item, Q cat item.
Proof.
  induction 1 as [|g g' c i _ IH HQ]; [auto|].
  unfold append_gift. destruct (decide (c = cat)) as [->|Hne].
  - intros _. right. by exists i.
  - by rewrite lookup_insert_ne.
Qed.

Lemma empty_gifts_keys cat :
  is_Some (empty_gifts !! cat) → In cat GIFT_CATEGORIES.
Proof.
  unfold empty_gifts, GIFT_CATEGORIES. simpl.
  rewrite !lookup_insert_is_Some, lookup_empty, is_Some_alt.
  intuition congruence.
Qed.

End GiftsMore.

(** X5. The gifts [parse_gift_preferences] returns have the five
    categories as keys and no other, whatever the document. *)
Theorem parse_gift_preferences_keys (soup : node) (cat : string) :
  is_Some (parse_gift_preferences soup !! cat) ↔ In cat GIFT_CATEGORIES.
Proof.
  split.
  - intros Hk.
    apply (appended_keys _ _ _ _ (parse_gift_preferences_appended soup))
      in Hk as [Hk|[item [Hc _]]]; [|done].
    apply (appended_keys _ _ _ _ (infobox_gifts_appended soup))
      in Hk as [Hk|[item [-> _]]].
    + by apply empty_gifts_keys.
    + unfold GIFT_CATEGORIES. simpl. auto.
  - intros Hcat.
    destruct (parse_gift_preferences_grows soup cat) as (Hkey & _).
    apply Hkey. by rewrite (empty_gifts_category _ Hcat).
Qed.

(** X6. No returned item is the empty string.  The items of "liked",
    "neutral", "disliked" and "hated" never mention "universal",
    "category", "gift" or "villager", in any letter case; an item of
    "loved" does only if the info panel listed it. *)
Theorem parse_gift_preferences_items (soup : node) (cat item : string) :
  In item (parse_gift_preferences soup !!! cat) →
  item ≠ ""
  ∧ (In cat HEADING_CATEGORIES → mentions_meta_word item = false)
  ∧ (mentions_meta_word item = true →
     cat = "loved" ∧ In item (infobox_gifts soup !!! "loved")).
Proof.
  intros Hin.
  apply (appended_items _ _ _ _ _ (parse_gift_preferences_appended soup))
    in Hin as [Hin|(_ & Hne & Hmeta)].
  - apply (appended_items _ _ _ _ _ (infobox_gifts_appended soup))
      in Hin as Hin'.
    destruct Hin' as [Hin'|[-> Hne]];
      [by rewrite empty_gifts_total in Hin'|].
    split; [done|]. split; [|done].
    unfold HEADING_CATEGORIES. simpl. intuition congruence.
  - split; [done|]. split; [done|]. congruence.
Qed.

(** X7. The heading walk only appends: in every category the items the
    info panel gave stay first, in their order, before what the headings
    add. *)
Theorem parse_gift_preferences_keeps_order (soup : node) (cat : string) :
  ∃ more,
    parse_gift_preferences soup !!! cat = infobox_gifts soup !!! cat ++ more.
Proof.
  apply (appended_prefix _ _ _ _ (parse_gift_preferences_appended soup)).
Qed.

(** ** Sibling walks *)

Section Walks.

Lemma walk_siblings_stop {S} stop (body : S → node → S) pre nm attrs cls cs
    post st :
  Str.mem nm stop = true →
  walk_siblings stop body (pre ++ Tag nm attrs cls cs :: post) st =
  walk_siblings stop body pre st.
Proof.
  intros Hstop. revert st.
  induction pre as [|n pre IH]; intros st; simpl.
  - by rewrite Hstop.
  - destruct (name n) as [nm'|]; [|apply IH].
    destruct (Str.mem nm' stop); [done|apply IH].
Qed.

Lemma walk_siblings_tags {S} stop (body : S → node → S) after st :
  walk_siblings stop body (List.filter is_tag after) st =
  walk_siblings stop body after st.
Proof.
  revert st. induction after as [|n rest IH]; intros st; [done|].
  destruct n as [s|nm attrs cls cs]; simpl; [apply IH|].
  destruct (Str.mem nm stop); [done|apply IH].
Qed.

End Walks.

(** X8. A category section ends at the next heading: under a gift heading,
    nothing from the first [h2] or [h3] sibling on is read, and the text
    nodes between the tags play no part. *)
Theorem heading_step_section (g : gmap string (list string))
    (heading : node) (pre post : list node)
    (nm : string) (attrs : list (string * string))
    (cls : option (list string)) (cs : list node) :
  nm = "h2" ∨ nm = "h3" →
  heading_step g (heading, pre ++ Tag nm attrs cls cs :: post)
  = heading_step g (heading, List.filter is_tag pre).
Proof.
  intros Hnm. unfold heading_step. cbn [fst snd].
  destruct (find "span" _ heading); [|done].
  destruct (assoc _ _) as [cat|]; [|done].
  destruct (Str.truthy cat); [|done].
  rewrite walk_siblings_tags. apply walk_siblings_stop.
  by destruct Hnm as [-> | ->].
Qed.

(** ** Full schedule, again *)

Section ScheduleMore.

Lemma fold_bind_block_keys s blocks : ∀ schedule,
  is_Some (fold_left bind_block blocks schedule !! s) ↔
  is_Some (schedule !! s) ∨ In s (map fst blocks).
Proof.
  induction blocks as [|[s' t] blocks IH]; intros schedule; simpl.
  - intuition.
  - rewrite IH. unfold bind_block. simpl.
    rewrite lookup_insert_is_Some. destruct (decide (s' = s)); intuition.
Qed.

Lemma schedule_tables_source lab t l : ∀ label,
  In (lab, t) (schedule_tables label l) →
  In t l ∧ is_wikitable t = true
  ∧ (lab = label ∨ ∃ p, In p l ∧ label_of p = Some lab).
Proof.
  induction l as [|n l IH]; intros label; [done|]. simpl.
  destruct (has_name "p" n) eqn:Hp.
  - intros (Ht & Hw & Hlab)%IH. split; [auto|]. split; [done|].
    destruct Hlab as [->|(p & Hin & Hl)]; [|right; eauto].
    destruct (label_of n) as [l'|] eqn:Hn; simpl; [right; eauto|by left].
  - destruct (is_wikitable n) eqn:Hw.
    + intros [[= <- <-]|(Ht & Hw' & Hlab)%IH]; [auto|].
      split; [auto|]. split; [done|].
      destruct Hlab as [->|(p & Hin & Hl)]; [by left|right; eauto].
    + intros (Ht & Hw' & Hlab)%IH. split; [auto|]. split; [done|].
      destruct Hlab as [->|(p & Hin & Hl)]; [by left|right; eauto].
Qed.

End ScheduleMore.

(** X9. The seasons of the mapping [parse_schedule] returns are the names
    of the season blocks that follow the schedule heading, no more and no
    fewer; a document without such a block gives the empty mapping. *)
Theorem parse_schedule_seasons (soup : node) (s : string) :
  is_Some (parse_schedule soup !! s) ↔
  In s (map fst (season_blocks (schedule_span soup))).
Proof.
  rewrite parse_schedule_blocks, fold_bind_block_keys, lookup_empty.
  rewrite is_Some_alt. intuition.
Qed.

(** X10. Every variant [parse_season_schedules] returns is read from a
    data table that is a child of the content cell, and it is named
    "Regular" or after the bold text of a paragraph that is a child of the
    content cell too. *)
Theorem parse_season_schedules_sources (season_table : node)
    (v : schedule_variant) :
  In v (parse_season_schedules season_table) →
  (∃ t, In t (content_children season_table) ∧ is_wikitable t = true
        ∧ entries v = omap row_entry (find_all "tr" [] t))
  ∧ (variant_name v = "Regular"
     ∨ ∃ p, In p (content_children season_table)
            ∧ label_of p = Some (variant_name v)).
Proof.
  rewrite parse_season_schedules_tables.
  intros [Hv _]%filter_In. apply in_map_iff in Hv as ([lab t] & <- & Hlt).
  apply schedule_tables_source in Hlt as (Ht & Hw & Hlab). eauto.
Qed.

(** ** Date index, again *)

Section DateIndexMore.

Lemma fold_index_step_season vs : ∀ idx s,
  is_Some (fold_left index_step vs idx !! s) ↔ is_Some (idx !! s).
Proof.
  induction vs as [|item vs IH]; intros idx s; [done|].
  cbn [fold_left]. by rewrite IH, index_step_season.
Qed.

Lemma mem_SEASONS s : Str.mem s SEASONS = true ↔ In s SEASONS.
Proof. apply mem_In. Qed.

Lemma index_step_skip idx item :
  (∀ s, is_Some (idx !! s) → In s SEASONS) →
  indexable item = false → index_step idx item = idx.
Proof.
  intros Hkeys. destruct item as [name data]. unfold indexable, index_step.
  cbn [snd]. destruct (villager_birthday data) as [b|]; [|done].
  intros Hs. destruct (idx !! season b) eqn:Hb; [|done].
  assert (In (season b) SEASONS) as Hin by (apply Hkeys; by rewrite Hb).
  apply mem_SEASONS in Hin. congruence.
Qed.

Lemma fold_index_step_filter vs : ∀ idx,
  (∀ s, is_Some (idx !! s) → In s SEASONS) →
  fold_left index_step (List.filter indexable vs) idx =
  fold_left index_step vs idx.
Proof.
  induction vs as [|item vs IH]; intros idx Hkeys; [done|].
  simpl. destruct (indexable item) eqn:Hi.
  - cbn [fold_left]. apply IH. intros s Hs.
    apply Hkeys. by apply index_step_season in Hs.
  - cbn [fold_left]. rewrite (index_step_skip idx item) by done.
    by apply IH.
Qed.

Lemma last_named_app s k vs1 vs2 :
  last_named s k (vs1 ++ vs2) =
  match last_named s k vs2 with
  | Some name => Some name
  | None => last_named s k vs1
  end.
Proof.
  induction vs1 as [|[name data] vs1 IH]; simpl.
  - by destruct (last_named s k vs2).
  - rewrite IH. by destruct (last_named s k vs2).
Qed.

End DateIndexMore.

(** X11. The date index has the four seasons as keys and no other,
    whatever the villagers: a birthday in another season adds no key and
    is not an error. *)
Theorem build_birthday_index_seasons (vs : list (string * villager))
    (s : string) :
  is_Some (build_birthday_index vs !! s) ↔ In s SEASONS.
Proof.
  unfold build_birthday_index.
  by rewrite fold_index_step_season, empty_index_season.
Qed.

(** X12. Villagers without a birthday, or with one in a season that is not
    a key of the index, leave the index as it is: the index of a
    collection is the index of its villagers that have a birthday in one
    of the four seasons. *)
Theorem build_birthday_index_skips (vs : list (string * villager)) :
  build_birthday_index (List.filter indexable vs) = build_birthday_index vs.
Proof.
  unfold build_birthday_index. apply fold_index_step_filter.
  intros s. by rewrite empty_index_season.
Qed.

(** X13. Indexing two collections one after the other: a date is answered
    from the second when it has a villager born then, and from the first
    otherwise. *)
Theorem build_birthday_index_app (vs1 vs2 : list (string * villager))
    (s k : string) :
  index_lookup (build_birthday_index (vs1 ++ vs2)) s k =
  match index_lookup (build_birthday_index vs2) s k with
  | Some name => Some name
  | None => index_lookup (build_birthday_index vs1) s k
  end.
Proof.
  rewrite !build_birthday_index_lookup. case_bool_decide; [|done].
  apply last_named_app.
Qed.

(** ** The run, again *)

Section RunMore.

Variable fetch : string → string + node.
Variable now : string.

Lemma dict_set_fresh {X} k (v : X) d :
  ¬ In k (map fst d) → dict_set k v d = d ++ [(k, v)].
Proof.
  induction d as [|[k' v'] d IH]; [done|]. simpl. intros Hk.
  destruct (String.eqb_spec k' k) as [->|Hne]; [tauto|].
  rewrite IH; [done|tauto].
Qed.

Lemma scrape_villager_details_result name url :
  fst (scrape_villager_details fetch name url) =
  match scraped fetch (name, url) with
  | Returns entry => Returns (snd <$> entry)
  | Raises e => Raises e
  end.
Proof.
  unfold scrape_villager_details, make_request, scraped. cbn [fst snd].
  destruct (fetch url) as [err|soup]; [done|].
  by destruct (parse_birthday soup).
Qed.

Lemma scrape_villager_details_requests name url :
  List.filter is_request (snd (scrape_villager_details fetch name url)) =
  [Sleep; HttpGet url].
Proof.
  unfold scrape_villager_details, make_request.
  destruct (fetch url) as [err|soup]; [done|].
  by destruct (parse_birthday soup).
Qed.

Lemma scraped_name nu entry :
  scraped fetch nu = Returns (Some entry) → fst entry = fst nu.
Proof.
  unfold scraped. destruct (fetch (snd nu)) as [err|soup]; [done|].
  destruct (parse_birthday soup); [|done]. by intros [= <-].
Qed.

(** A loop that returns has gone through the whole list. *)
Lemma scrape_loop_returns total l : ∀ a vs tr vs',
  List.NoDup (map fst l) →
  (∀ n, In n (map fst l) → ¬ In n (map fst vs)) →
  fst (scrape_loop fetch total (combine (seq a (length l)) l) vs tr)
  = Returns vs' →
  Forall (λ nu, ∃ entry, scraped fetch nu = Returns entry) l
  ∧ vs' = vs ++ omap (λ nu, returned (scraped fetch nu)) l
  ∧ List.filter is_request
      (snd (scrape_loop fetch total (combine (seq a (length l)) l) vs tr))
    = List.filter is_request tr
      ++ flat_map (λ nu, [Sleep; HttpGet (snd nu)]) l.
Proof.
  induction l as [|[name url] l IH]; intros a vs tr vs' Hnd Hfresh.
  - simpl. intros [= <-]. by rewrite !app_nil_r.
  - apply List.NoDup_cons_iff in Hnd as [Hname Hnd].
    cbn [length seq combine scrape_loop].
    pose proof (scrape_villager_details_result name url) as Hres.
    pose proof (scrape_villager_details_requests name url) as Hreq.
    destruct (scrape_villager_details fetch name url) as [details tr'].
    cbn [fst snd] in Hres, Hreq. unfold omap. cbn [list_omap].
    fold (omap (λ nu, returned (scraped fetch nu)) l).
    destruct (scraped fetch (name, url)) as [[[n v]|]|e] eqn:Hs;
      subst details; cbn [fmap option_fmap option_map snd returned].
    + apply scraped_name in Hs as Hn. simpl in Hn. subst n.
      rewrite dict_set_fresh by (apply Hfresh; simpl; auto).
      intros Hloop. apply IH in Hloop as (Hall & -> & Htr); [|done|].
      * split; [constructor; eauto|]. split; [by rewrite <- app_assoc|].
        rewrite Htr, !List.filter_app, Hreq. cbn [flat_map snd].
        simpl List.filter. by rewrite app_nil_r, <- !app_assoc.
      * intros n' Hn' Hin. rewrite map_app, in_app_iff in Hin.
        destruct Hin as [Hin|[<-|[]]]; [|done].
        eapply Hfresh; [right; exact Hn'|done].
    + intros Hloop. apply IH in Hloop as (Hall & -> & Htr); [|done|].
      * split; [constructor; eauto|]. split; [done|].
        rewrite Htr, !List.filter_app, Hreq. cbn [flat_map snd].
        simpl List.filter. by rewrite app_nil_r, <- !app_assoc.
      * intros n' Hn'. apply Hfresh. by right.
    + done.
Qed.



Lemma villager_list_names :
  List.NoDup (map fst (fst get_villager_list))
  ∧ fst get_villager_list ≠ []
  ∧ List.filter is_request (snd get_villager_list) = [].
Proof.
  split; [|done]. apply NoDup_ListNoDup.
  apply (bool_decide_unpack _). by vm_compute.
Qed.

(** [scrape_all_villagers] unfolded over the list of villagers: what it
    gives with the loop's villagers, and its trace with the loop's. *)
Lemma scrape_all_villagers_loop :
  ∃ tr1 : list event,
    List.filter is_request tr1 = []
    ∧ scrape_all_villagers fetch now =
      let l := fst get_villager_list in
      let loop :=
        scrape_loop fetch (length l) (combine (seq 1 (length l)) l) [] tr1 in
      (match fst loop with
       | Returns vs =>
           Returns
             (Some (Collection
                      (Metadata now VILLAGERS_URL (length vs)
                         (length (List.filter
                                    (λ kv, marriageable (snd kv)) vs)))
                      vs (build_birthday_index vs)))
       | Raises e => Raises e
       end, snd loop).
Proof.
  unfold scrape_all_villagers.
  destruct villager_list_names as (_ & Hne & Hreq). revert Hne Hreq.
  destruct get_villager_list as [vl tr0]. cbn [fst snd].
  intros Hne Hreq. destruct vl as [|v vl]; [done|].
  match goal with
  | |- context [scrape_loop fetch _ _ [] ?tr] => exists tr
  end.
  split; [|by destruct (scrape_loop _ _ _ _ _) as [[?|?] ?]].
  rewrite !List.filter_app, Hreq. by simpl.
Qed.

Lemma scrape_all_villagers_returns data :
  fst (scrape_all_villagers fetch now) = Returns (Some data) →
  let vs := omap (λ nu, returned (scraped fetch nu))
              (fst get_villager_list) in
  data = Collection
           (Metadata now VILLAGERS_URL (length vs)
              (length (List.filter (λ kv, marriageable (snd kv)) vs)))
           vs (build_birthday_index vs)
  ∧ Forall (λ nu, ∃ entry, scraped fetch nu = Returns entry)
      (fst get_villager_list)
  ∧ List.filter is_request (snd (scrape_all_villagers fetch now)) =
    flat_map (λ nu, [Sleep; HttpGet (snd nu)]) (fst get_villager_list).
Proof.
  destruct scrape_all_villagers_loop as (tr1 & Hreq & ->). cbv zeta.
  cbn [fst snd].
  destruct villager_list_names as (Hnd & _ & _).
  pose proof (scrape_loop_returns (length (fst get_villager_list))
                (fst get_villager_list) 1 [] tr1) as Hloop.
  destruct (scrape_loop fetch _ _ [] tr1) as [[vs|e] tr2]; [|done].
  cbn [fst snd] in *. intros H. apply (f_equal returned) in H.
  cbn [returned] in H. apply (inj Some) in H.
  destruct (Hloop vs Hnd (λ _ _, id) eq_refl) as (Hall & Hvs & Htr).
  rewrite app_nil_l in Hvs. subst vs. rewrite Hreq in Htr.
  split; [by symmetry|]. split; [done|]. exact Htr.
Qed.





End RunMore.

(** X14. A collection the run returns holds the listed villagers whose
    page came back, in the order of the list, each under its name and
    built from its own page; a villager whose request failed is left out
    and the run goes on; and the birthday of every page that came back
    has been read. *)
Theorem scrape_all_villagers_villagers (fetch : string → string + node)
    (now : string) (data : collection) :
  fst (scrape_all_villagers fetch now) = Returns (Some data) →
  Forall (λ nu, ∃ entry, scraped fetch nu = Returns entry)
    (fst get_villager_list)
  ∧ villagers data =
    omap (λ nu, returned (scraped fetch nu)) (fst get_villager_list).
Proof.
  intros (-> & Hall & _)%scrape_all_villagers_returns. done.
Qed.


(** X16. What the run saves: the collection it has built, once, to
    "villagers.json", when [scrape_all_villagers] returns a collection
    that holds a villager; nothing otherwise, and nothing when the run
    ends on an exception. *)
Theorem main_saves (fetch : string → string + node) (now : string) :
  List.filter is_save (snd (main fetch now)) =
  match fst (scrape_all_villagers fetch now) with
  | Returns (Some data) =>
      match villagers data with
      | [] => []
      | _ :: _ => [SaveJson "villagers.json" data]
      end
  | Returns None => []
  | Raises _ => []
  end.
Proof.
  rewrite main_trace.
  pose proof (scrape_all_villagers_no_save fetch now) as Htr.
  destruct (scrape_all_villagers fetch now) as [data tr]. cbn [fst snd] in *.
  assert (List.filter is_save tr = []) as Hnone.
  { induction Htr as [|e tr He _ IH]; [done|]. simpl. by rewrite He. }
  destruct data as [[[md [|[k v] vs] idx]|]|e]; cbn [snd];
    rewrite ?List.filter_app, Hnone; done.
Qed.

Section Collection.

Variable fetch : string → string + node.
Variable now : string.

Lemma scraped_entry l name v :
  In (name, v) (omap (λ nu, returned (scraped fetch nu)) l) →
  ∃ u soup b, In (name, u) l ∧ fetch u = inr soup
              ∧ parse_birthday soup = Returns b
              ∧ v = villager_of name u soup b.
Proof.
  intros Hin. apply list_elem_of_In, list_elem_of_omap in Hin
    as ([n u] & Hnu & Hs).
  apply list_elem_of_In in Hnu. unfold scraped, returned in Hs. simpl in Hs.
  destruct (fetch u) as [e|soup] eqn:Hf; [done|].
  destruct (parse_birthday soup) as [b|e] eqn:Hb; [|done].
  injection Hs as <- <-. eauto 10.
Qed.

Lemma length_omap_le {X Y} (f : X → option Y) l :
  length (omap f l) ≤ length l.
Proof.
  induction l as [|x l IH]; [done|]. unfold omap in *. simpl.
  destruct (f x); simpl; lia.
Qed.

End Collection.

(** X17. The counts of the metadata: the total is the number of villagers
    in the collection, at most the number listed; the number of marriage
    candidates is the number of villagers of the collection whose name is
    one of the twelve candidates, at most the total. *)
Theorem scrape_all_villagers_counts (fetch : string → string + node)
    (now : string) (data : collection) :
  fst (scrape_all_villagers fetch now) = Returns (Some data) →
  total_villagers (collection_metadata data) = length (villagers data)
  ∧ total_villagers (collection_metadata data)
    ≤ length (fst get_villager_list)
  ∧ marriage_candidates (collection_metadata data) =
    length (List.filter (λ kv, Str.mem (fst kv) MARRIAGE_CANDIDATES)
              (villagers data))
  ∧ marriage_candidates (collection_metadata data)
    ≤ total_villagers (collection_metadata data).
Proof.
  intros (-> & _ & _)%scrape_all_villagers_returns.
  cbn [collection_metadata villagers total_villagers marriage_candidates].
  split; [done|]. split; [apply length_omap_le|]. split.
  - f_equal. apply List.filter_ext_in. intros [name v] Hin.
    apply scraped_entry in Hin as (u & soup & b & _ & _ & _ & ->). done.
  - apply List.filter_length_le.
Qed.

(** X18. Every villager of the collection that has a birthday can be
    found by date: the index of the collection answers its season and the
    day string of its day with the name of a villager of the collection
    born that day. *)
Theorem scrape_all_villagers_indexed (fetch : string → string + node)
    (now : string) (data : collection) (name : string) (v : villager)
    (b : birthday) :
  fst (scrape_all_villagers fetch now) = Returns (Some data) →
  In (name, v) (villagers data) →
  villager_birthday v = Some b →
  ∃ name' v',
    index_lookup (birthdays_by_date data) (season b) (str (day b))
    = Some name'
    ∧ In (name', v') (villagers data)
    ∧ villager_birthday v' = Some b.
Proof.
  intros (-> & _ & _)%scrape_all_villagers_returns.
  cbn [villagers birthdays_by_date].
  set (vs := omap (λ nu, returned (scraped fetch nu))
               (fst get_villager_list)).
  intros Hin Hb.
  assert (In (season b) SEASONS) as Hs.
  { apply scraped_entry in Hin as (u & soup & b' & _ & _ & Hp & ->).
    cbn [villager_of villager_birthday] in Hb. subst b'.
    apply parse_birthday_inv in Hp as (text & Ht).
    by apply birthday_of_text_inv in Ht as [Hs _]. }
  rewrite build_birthday_index_lookup, bool_decide_eq_true_2 by done.
  destruct (last_named (season b) (str (day b)) vs) as [name'|] eqn:Hl.
  - apply last_named_Some in Hl as (v' & Hin' & Hk).
    apply birthday_key_spec in Hk. exists name', v'.
    split; [done|]. split; [done|]. unfold has_birthday in Hk.
    by destruct b.
  - apply last_named_None in Hl. rewrite List.Forall_forall in Hl.
    apply Hl in Hin. exfalso. apply Hin. simpl.
    apply birthday_key_spec. unfold has_birthday. by destruct b.
Qed.

(** ** Day strings *)

Section DayString.

Lemma int_from_uint_acc d : ∀ acc,
  int_from (NilEmpty.string_of_uint d) (Zpos acc) =
  Zpos (Pos.of_uint_acc d acc).
Proof.
  induction d; intros acc; simpl; [done|..];
    unfold int_from in *; simpl; rewrite <- IHd; f_equal;
    unfold digit_value; simpl; lia.
Qed.

Lemma int_from_uint d :
  int_from (NilEmpty.string_of_uint d) 0 = Z.of_N (Pos.of_uint d).
Proof.
  induction d; simpl; [done|..];
    first [ exact IHd
          | unfold int_from; simpl;
            exact (int_from_uint_acc d _) ].
Qed.

Lemma uint_digits d : all_digits (NilEmpty.string_of_uint d) = true.
Proof. induction d; simpl; by rewrite ?IHd. Qed.

Lemma str_digits n :
  (0 ≤ n)%Z → all_digits (str n) = true ∧ str n ≠ "".
Proof.
  destruct n as [|p|p]; [done| |lia]. intros _. unfold str. simpl.
  pose proof (DecimalPos.Unsigned.to_uint_nonnil p) as Hnn.
  destruct (Pos.to_uint p) eqn:Hp; [done|..];
    (split; [apply (uint_digits (_ u))|done]).
Qed.

Lemma int_value_str n : (0 ≤ n)%Z → int_value (str n) = n.
Proof.
  destruct n as [|p|p]; [done| |lia]. intros _. unfold str. simpl.
  pose proof (DecimalPos.Unsigned.to_uint_nonnil p) as Hnn.
  pose proof (DecimalPos.Unsigned.of_to p) as Hof.
  pose proof (int_from_uint (Pos.to_uint p)) as Hint.
  rewrite Hof in Hint. simpl in Hint.
  by destruct (Pos.to_uint p).
Qed.

(** A string of digits is the writing of a decimal number. *)
Lemma digits_uint D :
  all_digits D = true → ∃ d, NilEmpty.string_of_uint d = D.
Proof.
  induction D as [|c D IH]; [by exists Decimal.Nil|]. simpl.
  intros [Hc [d <-]%IH]%andb_prop.
  destruct c as [[] [] [] [] [] [] [] []]; try done;
    first [ by exists (Decimal.D0 d) | by exists (Decimal.D1 d)
          | by exists (Decimal.D2 d) | by exists (Decimal.D3 d)
          | by exists (Decimal.D4 d) | by exists (Decimal.D5 d)
          | by exists (Decimal.D6 d) | by exists (Decimal.D7 d)
          | by exists (Decimal.D8 d) | by exists (Decimal.D9 d) ].
Qed.

Lemma length_nzhead d :
  String.length (NilEmpty.string_of_uint (Decimal.nzhead d))
  ≤ String.length (NilEmpty.string_of_uint d).
Proof. induction d; simpl; lia. Qed.

(** Writing the value of a string of digits takes no more digits than the
    string has. *)
Lemma str_int_value_length D :
  all_digits D = true → D ≠ "" →
  String.length (str (int_value D)) ≤ String.length D.
Proof.
  intros [d <-]%digits_uint Hne.
  change (int_value (NilEmpty.string_of_uint d))
    with (int_from (NilEmpty.string_of_uint d) 0).
  rewrite int_from_uint.
  pose proof (DecimalPos.Unsigned.to_of d) as Hto.
  destruct (Pos.of_uint d) as [|p] eqn:Hp.
  - destruct d; [done|..]; simpl; lia.
  - simpl in Hto. unfold str. simpl. rewrite Hto.
    pose proof (DecimalPos.Unsigned.to_uint_nonzero p) as Hnz.
    rewrite Hto in Hnz. unfold Decimal.unorm in *.
    pose proof (length_nzhead d) as Hlen.
    destruct (Decimal.nzhead d); [done|..]; exact Hlen.
Qed.

End DayString.

(** X19. The index key reads back: for a birthday [parse_birthday] has
    returned, the day string the index files it under is a non-empty
    string of digits that [int] reads as the day, so that the season, a
    space and that string are read by the birthday patterns as the same
    birthday. *)
Theorem parse_birthday_day_string (soup : node) (b : birthday) :
  parse_birthday soup = Returns (Some b) →
  all_digits (str (day b)) = true
  ∧ int (str (day b)) = Returns (day b)
  ∧ birthday_of_text (season b +:+ " " +:+ str (day b))
    = Returns (Some b).
Proof.
  intros (text & Ht)%parse_birthday_inv.
  apply birthday_of_text_inv in Ht as (HS & D & HD & Hne & Hday & Hint).
  assert (0 ≤ day b)%Z as Hpos by (rewrite Hday; by apply int_nonneg).
  destruct (str_digits _ Hpos) as [Hdig Hnon].
  apply int_Returns in Hint as [Hbound _].
  assert (String.length (str (day b)) ≤ MAX_STR_DIGITS) as Hlen.
  { rewrite Hday. pose proof (str_int_value_length D HD Hne). lia. }
  split; [done|]. split.
  - apply int_Returns. split; [done|]. symmetry. by apply int_value_str.
  - rewrite (birthday_of_text_season_day _ " ") by done.
    rewrite birthday_from_bound by done.
    rewrite int_value_str by done. by destruct b.
Qed.

(** ** Loved gifts of the info panel *)

Section LovedRow.

Implicit Types g : gmap string (list string).

Lemma fold_left_reaches {X} (P : gmap string (list string) → Prop)
    (f : gmap string (list string) → X → gmap string (list string)) l x :
  In x l → (∀ g, P (f g x)) → (∀ g y, P g → P (f g y)) →
  ∀ g, P (fold_left f l g).
Proof.
  intros Hin Hx Hkeep. induction l as [|y l IH]; [done|]. intros g.
  assert (∀ l' g', P g' → P (fold_left f l' g')) as Hfold.
  { induction l' as [|z l' IH']; intros g' Hg'; [done|].
    simpl. by apply IH', Hkeep. }
  simpl. destruct Hin as [->|Hin]; [by apply Hfold|by apply IH].
Qed.

Lemma gifts_grow_keeps g g' cat item :
  gifts_grow g g' → In item (g !!! cat) → In item (g' !!! cat).
Proof. intros Hg. destruct (Hg cat) as (_ & Hin & _). apply Hin. Qed.

Lemma loved_link_step_collects g link title :
  get "title" link = Some title →
  Str.startswith title "File:" = false → Str.strip title ≠ "" →
  In (Str.strip title) (loved_link_step g link !!! "loved").
Proof.
  intros Ht Hfile Hne. unfold loved_link_step. rewrite Ht, Hfile.
  assert (Str.truthy title = true) as ->.
  { destruct title; [|done]. by vm_compute in Hne. }
  assert (Str.truthy (Str.strip title) = true) as ->
    by by destruct (Str.strip title).
  simpl. destruct (Str.mem _ _) eqn:Hm; simpl.
  - by apply mem_In.
  - rewrite append_gift_total, decide_True by done.
    apply in_or_app. right. by left.
Qed.

End LovedRow.

(** X20. Every item the "Loved" row links is collected: a link of the
    detail cell of an info-panel row whose label mentions "Loved", with a
    title that does not start with "File:" and is not blank, has its
    stripped title in the returned "loved", whatever else the page
    holds. *)
Theorem parse_gift_preferences_collects_loved
    (soup infobox row section detail link : node) (title : string) :
  find "table" [("id", "infoboxtable")] soup = Some infobox →
  In row (find_all "tr" [] infobox) →
  find "td" [("id", "infoboxsection")] row = Some section →
  Str.contains "Loved" (get_text "" false section) = true →
  find "td" [("id", "infoboxdetail")] row = Some detail →
  In link (find_all "a" [] detail) →
  get "title" link = Some title →
  Str.startswith title "File:" = false → Str.strip title ≠ "" →
  In (Str.strip title) (parse_gift_preferences soup !!! "loved").
Proof.
  intros Hbox Hrow Hsec Hloved Hdet Hlink Ht Hfile Hne.
  apply (gifts_grow_keeps _ _ _ _ (parse_gift_preferences_grow soup)).
  unfold infobox_gifts. rewrite Hbox.
  apply (fold_left_reaches
           (λ g, In (Str.strip title) (g !!! "loved")) _ _ row); [done| |].
  - intros g. unfold loved_row_step. rewrite Hsec, Hloved, Hdet.
    apply (fold_left_reaches
             (λ g, In (Str.strip title) (g !!! "loved")) _ _ link); [done| |].
    + intros g'. by apply loved_link_step_collects.
    + intros g' y. apply gifts_grow_keeps, loved_link_step_grow.
  - intros g y. apply gifts_grow_keeps, loved_row_step_grow.
Qed.

(** ** Stripped items *)

Section Strip.

Lemma lstrip_list s :
  String.list_ascii_of_string (Str.lstrip s) =
  drop_space (String.list_ascii_of_string s).
Proof.
  induction s as [|c s IH]; [done|]. simpl. by destruct (Str.isspace c).
Qed.

Lemma strip_list s :
  String.list_ascii_of_string (Str.strip s) =
  rev (drop_space (rev (drop_space (String.list_ascii_of_string s)))).
Proof.
  unfold Str.strip, Str.rstrip, Str.rev.
  by rewrite String.list_ascii_of_string_of_list_ascii, lstrip_list,
    String.list_ascii_of_string_of_list_ascii, lstrip_list.
Qed.

Lemma drop_space_head l :
  match l with c :: _ => Str.isspace c = false | [] => True end →
  drop_space l = l.
Proof. destruct l as [|c l]; [done|]. simpl. by intros ->. Qed.

Lemma drop_space_idemp l : drop_space (drop_space l) = drop_space l.
Proof.
  induction l as [|c l IH]; [done|]. simpl.
  destruct (Str.isspace c) eqn:Hc; [done|]. simpl. by rewrite Hc.
Qed.

Lemma drop_space_snoc l c :
  Str.isspace c = false → drop_space (l ++ [c]) = drop_space l ++ [c].
Proof.
  intros Hc. induction l as [|a l IH]; simpl; [by rewrite Hc|].
  by destruct (Str.isspace a).
Qed.

Lemma strip_list_idemp l :
  let r := rev (drop_space (rev (drop_space l))) in
  rev (drop_space (rev (drop_space r))) = r.
Proof.
  cbv zeta. destruct (drop_space l) as [|c m] eqn:Hm; [done|].
  assert (Str.isspace c = false) as Hc.
  { induction l as [|a l IH]; [done|]. simpl in Hm.
    destruct (Str.isspace a) eqn:Ha; [auto|]. by injection Hm as <- _. }
  cbn [rev]. rewrite (drop_space_snoc (rev m) c Hc).
  rewrite rev_app_distr. cbn [rev app].
  rewrite (drop_space_head (c :: _)) by done.
  cbn [rev]. rewrite rev_involutive, drop_space_snoc by done.
  by rewrite drop_space_idemp, rev_app_distr.
Qed.

Lemma strip_idemp s : Str.strip (Str.strip s) = Str.strip s.
Proof.
  rewrite <- (String.string_of_list_ascii_of_string (Str.strip (Str.strip s))).
  rewrite <- (String.string_of_list_ascii_of_string (Str.strip s)) at 2.
  f_equal. rewrite (strip_list (Str.strip s)), !strip_list.
  apply strip_list_idemp.
Qed.

End Strip.

(** X21. The items of the returned gifts carry no white space at either
    end: stripping a returned item gives the item back. *)
Theorem parse_gift_preferences_stripped (soup : node) (cat item : string) :
  In item (parse_gift_preferences soup !!! cat) → Str.strip item = item.
Proof.
  intros (title & _ & ->)%parse_gift_preferences_sources.
  apply strip_idemp.
Qed.


(** ** More theorems at concrete pages *)


Lemma birthday_of_text_ignores_rest_witness :
  birthday_of_text "Summer 13 (a Saturday)"
  = Returns (Some (Birthday "Summer" 13))
  ∧ birthday_of_text "13 Summer (a Saturday)"
    = Returns (Some (Birthday "Summer" 13)).
Proof.
  destruct (birthday_of_text_ignores_rest "Summer" " " "13" " (a Saturday)")
    as (Hfirst & Hsecond & Hbound & _).
  - right. left. reflexivity.
  - reflexivity.
  - reflexivity.
  - discriminate.
  - assert (String.length "13" ≤ MAX_STR_DIGITS) as Hlen
      by (vm_compute; lia).
    split.
    + exact (eq_trans (Hfirst eq_refl) (Hbound Hlen)).
    + exact (eq_trans Hsecond (Hbound Hlen)).
Defined.

Lemma birthday_of_text_form_witness :
  ∃ S ws D rest,
    In S SEASONS ∧ all_in Str.isspace ws = true
    ∧ all_digits D = true ∧ D ≠ ""
    ∧ Birthday "Fall" 13 = Birthday S (int_value D)
    ∧ int D = Returns (int_value D)
    ∧ ("13 Fall" = S +:+ ws +:+ D +:+ rest
       ∨ "13 Fall" = D +:+ ws +:+ S +:+ rest).
Proof.
  apply (birthday_of_text_form "13 Fall" (Birthday "Fall" 13)).
  reflexivity.
Defined.

Lemma parse_image_url_no_leading_slash_witness :
  BASE_URL +:+ "/images/x.png" ≠ ""
  ∧ Str.startswith (BASE_URL +:+ "/images/x.png") "/" = false.
Proof.
  apply (parse_image_url_no_leading_slash Pages.portrait_page).
  reflexivity.
Defined.

Lemma parse_image_url_stable_witness :
  parse_image_url Pages.full_portrait_page
  = Some (BASE_URL +:+ "/images/x.png").
Proof.
  apply (parse_image_url_stable Pages.portrait_page Pages.full_portrait_page
           Pages.full_portrait_box Pages.full_portrait);
    reflexivity.
Defined.

Lemma parse_gift_preferences_items_witness :
  "Cake" ≠ ""
  ∧ (In "loved" HEADING_CATEGORIES → mentions_meta_word "Cake" = false)
  ∧ (mentions_meta_word "Cake" = true →
     "loved" = "loved"
     ∧ In "Cake" (infobox_gifts Pages.pizza_page !!! "loved")).
Proof.
  apply (parse_gift_preferences_items Pages.pizza_page "loved" "Cake").
  vm_compute. right. left. reflexivity.
Defined.

Lemma heading_step_section_witness :
  heading_step empty_gifts
    (Pages.headline "h3" "Like",
     [Pages.text "Likes: "; Pages.el "p" [Pages.link "Egg"]]
     ++ Tag "h2" [] None [] :: [Pages.el "p" [Pages.link "Milk"]])
  = heading_step empty_gifts
      (Pages.headline "h3" "Like",
       List.filter is_tag
         [Pages.text "Likes: "; Pages.el "p" [Pages.link "Egg"]]).
Proof.
  apply (heading_step_section empty_gifts (Pages.headline "h3" "Like")
           [Pages.text "Likes: "; Pages.el "p" [Pages.link "Egg"]]
           [Pages.el "p" [Pages.link "Milk"]] "h2" [] None []).
  left. reflexivity.
Defined.

Lemma parse_season_schedules_sources_witness :
  (∃ t, In t (content_children Pages.spring_block) ∧ is_wikitable t = true
        ∧ entries (variant_of ("Rain", Pages.rain_table))
          = omap row_entry (find_all "tr" [] t))
  ∧ (variant_name (variant_of ("Rain", Pages.rain_table)) = "Regular"
     ∨ ∃ p, In p (content_children Pages.spring_block)
            ∧ label_of p
              = Some (variant_name (variant_of ("Rain", Pages.rain_table)))).
Proof.
  apply (parse_season_schedules_sources Pages.spring_block
           (variant_of ("Rain", Pages.rain_table))).
  vm_compute. left. reflexivity.
Defined.

Lemma scrape_all_villagers_villagers_witness :
  Forall (λ nu, ∃ entry, scraped Pages.two_pages nu = Returns entry)
    (fst get_villager_list)
  ∧ villagers Pages.two_pages_collection =
    omap (λ nu, returned (scraped Pages.two_pages nu))
      (fst get_villager_list).
Proof.
  apply (scrape_all_villagers_villagers Pages.two_pages "2026-01-01").
  vm_compute. reflexivity.
Defined.

Lemma scrape_all_villagers_counts_witness :
  total_villagers (collection_metadata Pages.two_pages_collection)
  = length (villagers Pages.two_pages_collection)
  ∧ total_villagers (collection_metadata Pages.two_pages_collection)
    ≤ length (fst get_villager_list)
  ∧ marriage_candidates (collection_metadata Pages.two_pages_collection) =
    length (List.filter (λ kv, Str.mem (fst kv) MARRIAGE_CANDIDATES)
              (villagers Pages.two_pages_collection))
  ∧ marriage_candidates (collection_metadata Pages.two_pages_collection)
    ≤ total_villagers (collection_metadata Pages.two_pages_collection).
Proof.
  apply (scrape_all_villagers_counts Pages.two_pages "2026-01-01"
           Pages.two_pages_collection).
  vm_compute. reflexivity.
Defined.

Lemma scrape_all_villagers_indexed_witness :
  ∃ name' v',
    index_lookup (birthdays_by_date Pages.two_pages_collection)
      "Summer" (str 13) = Some name'
    ∧ In (name', v') (villagers Pages.two_pages_collection)
    ∧ villager_birthday v' = Some (Birthday "Summer" 13).
Proof.
  apply (scrape_all_villagers_indexed Pages.two_pages "2026-01-01"
           Pages.two_pages_collection "Sam"
           (villager_of "Sam" (BASE_URL +:+ "/Sam")
              (Pages.birthday_page "Summer 13")
              (Some (Birthday "Summer" 13)))
           (Birthday "Summer" 13)).
  - vm_compute. reflexivity.
  - vm_compute. left. reflexivity.
  - reflexivity.
Defined.

Lemma parse_birthday_day_string_witness :
  all_digits (str 13) = true
  ∧ int (str 13) = Returns 13%Z
  ∧ birthday_of_text ("Summer" +:+ " " +:+ str 13)
    = Returns (Some (Birthday "Summer" 13)).
Proof.
  apply (parse_birthday_day_string (Pages.birthday_page "Summer 13")
           (Birthday "Summer" 13)).
  reflexivity.
Defined.

Lemma parse_gift_preferences_collects_loved_witness :
  In (Str.strip "Pizza") (parse_gift_preferences Pages.pizza_page !!! "loved").
Proof.
  apply (parse_gift_preferences_collects_loved Pages.pizza_page
           (Pages.infobox [Pages.info_row "Loved Gifts" [Pages.link "Pizza"]])
           (Pages.info_row "Loved Gifts" [Pages.link "Pizza"])
           (Tag "td" [("id", "infoboxsection")] None
              [Pages.text "Loved Gifts"])
           (Tag "td" [("id", "infoboxdetail")] None [Pages.link "Pizza"])
           (Pages.link "Pizza") "Pizza").
  - reflexivity.
  - left. reflexivity.
  - reflexivity.
  - reflexivity.
  - reflexivity.
  - left. reflexivity.
  - reflexivity.
  - reflexivity.
  - vm_compute. discriminate.
Defined.

Lemma parse_gift_preferences_stripped_witness :
  Str.strip "Pizza" = "Pizza".
Proof.
  apply (parse_gift_preferences_stripped Pages.pizza_page "loved" "Pizza").
  vm_compute. left. reflexivity.
Defined.
